(** * upload_csv_to_postgres: a shallow embedding and its properties

    The Python module [upload_csv_to_postgres.py] loads a directory of CSV
    files into PostgreSQL: it sanitizes the column labels, maps pandas dtypes
    to column types, creates one table per file and inserts the rows in
    batches, one transaction per file.

    Python strings are embedded as [string]; a character [ascii] is read as
    the code point of the same number, so the labels covered are those over
    U+0000..U+00FF.  On that range the character classes used by [str.lower],
    [str.isdigit] and the regular expression classes [\w] and [\s] are
    written out below as CPython computes them.

    The database connection is embedded as the list of calls issued on it;
    whether a call raises is decided by the driver, a function of the calls so
    far and the call.  Console output is left out. *)

From Stdlib Require Import List String Ascii Bool Arith Lia.
Import ListNotations.
Local Open Scope string_scope.
Local Open Scope list_scope.
Local Open Scope nat_scope.

Set Implicit Arguments.

(** ** Characters *)

Module Char.

Definition ord (c : ascii) : nat := nat_of_ascii c.
Definition chr (n : nat) : ascii := ascii_of_nat n.

Definition between (lo hi : nat) (c : ascii) : bool :=
  (lo <=? ord c) && (ord c <=? hi).

Definition underscore : ascii := "_"%char.

Definition is_underscore (c : ascii) : bool := Ascii.eqb c underscore.

(** [0-9] *)
Definition is_ascii_digit (c : ascii) : bool := between 48 57 c.

(** [a-z] *)
Definition is_ascii_lower (c : ascii) : bool := between 97 122 c.

(** code points below 128 *)
Definition is_ascii (c : ascii) : bool := ord c <? 128.

(** [str.lower] on one code point: A-Z, and the upper-case letters of the
    Latin-1 supplement (U+00C0..U+00DE without the multiplication sign
    U+00D7), move 32 places up; every other code point is unchanged. *)
Definition to_lower (c : ascii) : ascii :=
  if between 65 90 c || between 192 214 c || between 216 222 c
  then chr (ord c + 32)
  else c.

(** [str.isalpha]: letters (general category L). *)
Definition isalpha (c : ascii) : bool :=
  between 65 90 c || between 97 122 c
  || Nat.eqb (ord c) 170 || Nat.eqb (ord c) 181 || Nat.eqb (ord c) 186
  || between 192 214 c || between 216 246 c || between 248 255 c.

(** [str.isdigit]: 0-9 and the superscripts U+00B2, U+00B3, U+00B9. *)
Definition isdigit (c : ascii) : bool :=
  between 48 57 c
  || Nat.eqb (ord c) 178 || Nat.eqb (ord c) 179 || Nat.eqb (ord c) 185.

(** [str.isnumeric]: the digits and the fractions U+00BC..U+00BE. *)
Definition isnumeric (c : ascii) : bool := isdigit c || between 188 190 c.

(** The class [\w] of [re] on a [str] pattern: alphanumeric or underscore. *)
Definition is_word (c : ascii) : bool :=
  isalpha c || isnumeric c || is_underscore c.

(** The class [\s] of [re] on a [str] pattern: TAB..CR, FS..US, SPACE,
    NEL (U+0085) and NBSP (U+00A0). *)
Definition is_space (c : ascii) : bool :=
  between 9 13 c || between 28 32 c
  || Nat.eqb (ord c) 133 || Nat.eqb (ord c) 160.

End Char.

(** ** Regular-expression substitutions and string helpers, on code points *)

Module Re.

(** [re.sub(r'[^\w\s]', '_', name)]: every character that is neither a word
    character nor white space becomes one underscore. *)
Definition sub_nonword_nonspace (name : list ascii) : list ascii :=
  map (fun c => if Char.is_word c || Char.is_space c then c
                else Char.underscore) name.

(** [re.sub(p+, '_', name)] for a character class [p]: each maximal run of
    [p]-characters becomes one underscore.  [in_run] says that the previous
    character belonged to the run being replaced. *)
Fixpoint sub_runs (p : ascii -> bool) (in_run : bool) (name : list ascii)
  : list ascii :=
  match name with
  | [] => []
  | c :: rest =>
      if p c
      then (if in_run then sub_runs p true rest
            else Char.underscore :: sub_runs p true rest)
      else c :: sub_runs p false rest
  end.

(** [re.sub(r'\s+', '_', name)] *)
Definition sub_space_runs (name : list ascii) : list ascii :=
  sub_runs Char.is_space false name.

(** [re.sub(r'_+', '_', name)] *)
Definition sub_underscore_runs (name : list ascii) : list ascii :=
  sub_runs Char.is_underscore false name.

End Re.

Module Str.

Fixpoint drop_while (p : ascii -> bool) (s : list ascii) : list ascii :=
  match s with
  | [] => []
  | c :: rest => if p c then drop_while p rest else s
  end.

Definition lstrip (p : ascii -> bool) (s : list ascii) : list ascii :=
  drop_while p s.

Definition rstrip (p : ascii -> bool) (s : list ascii) : list ascii :=
  rev (drop_while p (rev s)).

(** [s.strip(chars)] with [p] the membership test of [chars]. *)
Definition strip (p : ascii -> bool) (s : list ascii) : list ascii :=
  rstrip p (lstrip p s).

(** [s.lower()] *)
Definition lower (s : list ascii) : list ascii := map Char.to_lower s.

Definition lower_string (s : string) : string :=
  string_of_list_ascii (lower (list_ascii_of_string s)).

(** [s and s[0].isdigit()] *)
Definition starts_with_digit (s : list ascii) : bool :=
  match s with
  | [] => false
  | c :: _ => Char.isdigit c
  end.

Definition is_empty (s : list ascii) : bool :=
  match s with [] => true | _ => false end.

(** The double quote, U+0022. *)
Definition dquote : string := String (Char.chr 34) EmptyString.

(** The line feed, U+000A. *)
Definition newline : string := String (Char.chr 10) EmptyString.

(** [sep.join(parts)] *)
Definition join (sep : string) (parts : list string) : string :=
  String.concat sep parts.

(** [sub in s] *)
Fixpoint contains (sub s : string) : bool :=
  String.prefix sub s
  || match s with
     | EmptyString => false
     | String _ rest => contains sub rest
     end.

(** [s.replace(old, new)] for a non-empty [old]: the occurrences of [old]
    are found from left to right without overlap; [skip] counts the
    characters of a matched occurrence still to be passed over. *)
Fixpoint replace_from (old new : list ascii) (skip : nat) (s : list ascii)
  : list ascii :=
  match s with
  | [] => []
  | c :: rest =>
      match skip with
      | S k => replace_from old new k rest
      | O =>
          if String.prefix (string_of_list_ascii old) (string_of_list_ascii s)
          then new ++ replace_from old new (List.length old - 1) rest
          else c :: replace_from old new 0 rest
      end
  end.

Definition replace (old new s : string) : string :=
  string_of_list_ascii
    (replace_from (list_ascii_of_string old) (list_ascii_of_string new) 0
                  (list_ascii_of_string s)).

End Str.

(** ** sanitize_column_name *)

Definition sanitize_chars (column_name : list ascii) : list ascii :=
  (* Convert to lowercase *)
  let name := Str.lower column_name in
  (* Replace spaces and special characters with underscores *)
  let name := Re.sub_nonword_nonspace name in
  let name := Re.sub_space_runs name in
  (* Remove consecutive underscores *)
  let name := Re.sub_underscore_runs name in
  (* Remove leading/trailing underscores *)
  let name := Str.strip Char.is_underscore name in
  (* Ensure it doesn't start with a number *)
  let name := if Str.starts_with_digit name
              then list_ascii_of_string "col_" ++ name else name in
  (* Handle empty names *)
  let name := if Str.is_empty name
              then list_ascii_of_string "unnamed_column" else name in
  name.

Definition sanitize_column_name (column_name : string) : string :=
  string_of_list_ascii (sanitize_chars (list_ascii_of_string column_name)).

(** The pattern [^[a-z_][a-z0-9_]*$], as a full match. *)
Definition ident_start (c : ascii) : bool :=
  Char.is_ascii_lower c || Char.is_underscore c.

Definition ident_char (c : ascii) : bool :=
  Char.is_ascii_lower c || Char.is_ascii_digit c || Char.is_underscore c.

Definition matches_identifier (s : string) : bool :=
  match list_ascii_of_string s with
  | [] => false
  | c :: rest => ident_start c && forallb ident_char rest
  end.

Definition is_ascii_string (s : string) : bool :=
  forallb Char.is_ascii (list_ascii_of_string s).

Definition starts_with_digit (s : string) : bool :=
  Str.starts_with_digit (list_ascii_of_string s).

(** What [sanitize_chars] establishes: lower-case word characters only, no
    two underscores in a row, none at either end, no leading digit, and at
    least one character. *)
Definition clean_char (c : ascii) : bool :=
  Char.is_word c && Ascii.eqb (Char.to_lower c) c.

Fixpoint no_double_underscore (s : list ascii) : bool :=
  match s with
  | [] => true
  | c :: rest =>
      match rest with
      | [] => true
      | d :: _ => negb (Char.is_underscore c && Char.is_underscore d)
                  && no_double_underscore rest
      end
  end.

Definition head_is (p : ascii -> bool) (s : list ascii) : bool :=
  match s with [] => false | c :: _ => p c end.

Definition canonical (s : list ascii) : bool :=
  forallb clean_char s
  && no_double_underscore s
  && negb (head_is Char.is_underscore s)
  && negb (head_is Char.is_underscore (rev s))
  && negb (Str.starts_with_digit s)
  && negb (Str.is_empty s).

(** ** get_postgres_type

    The argument is [str(dtype)], the name pandas reports for the dtype. *)
Definition get_postgres_type (dtype_str : string) : string :=
  if Str.contains "int" dtype_str then "BIGINT"
  else if Str.contains "float" dtype_str then "DOUBLE PRECISION"
  else if Str.contains "bool" dtype_str then "BOOLEAN"
  else if Str.contains "datetime" dtype_str then "TIMESTAMP"
  else if Str.contains "date" dtype_str then "DATE"
  else "TEXT".

(** The six type tags. *)
Definition postgres_types : list string :=
  ["BIGINT"; "DOUBLE PRECISION"; "BOOLEAN"; "TIMESTAMP"; "DATE"; "TEXT"].

(** The precedence of section 4.2 read as an ordered rule table: the first
    rule whose marker occurs in the dtype name decides, [TEXT] otherwise. *)
Definition precedence_rules : list (string * string) :=
  [("int", "BIGINT"); ("float", "DOUBLE PRECISION"); ("bool", "BOOLEAN");
   ("datetime", "TIMESTAMP"); ("date", "DATE")].

Fixpoint first_match (rules : list (string * string)) (fallback : string)
  (dtype_str : string) : string :=
  match rules with
  | [] => fallback
  | (marker, tag) :: rest =>
      if Str.contains marker dtype_str then tag
      else first_match rest fallback dtype_str
  end.

(** ** get_table_name_from_filename *)
Definition get_table_name_from_filename (filename : string) : string :=
  (* Remove .csv extension and use the filename as table name *)
  let table_name := Str.replace ".csv" EmptyString filename in
  table_name.

(** [os.path.basename]: what follows the last slash. *)
Fixpoint take_while (p : ascii -> bool) (s : list ascii) : list ascii :=
  match s with
  | [] => []
  | c :: rest => if p c then c :: take_while p rest else []
  end.

Definition basename (path : string) : string :=
  string_of_list_ascii
    (rev (take_while (fun c => negb (Ascii.eqb c "/"%char))
                     (rev (list_ascii_of_string path)))).

(** ** The pandas DataFrame *)

(** A cell is missing ([NaN]) or holds a value, kept as its text. *)
Inductive cell : Type :=
| NaN
| Value (v : string).

(** [df_columns]: the labels in file order, each with the name of the dtype
    pandas inferred for it; [df_values]: the rows. *)
Record DataFrame : Type := {
  df_columns : list (string * string);
  df_values : list (list cell)
}.

(** [df.columns] *)
Definition columns (df : DataFrame) : list string := map fst (df_columns df).

(** [str(df[col].dtype)] for a label [col] of [df.columns]; the fallback is
    not reached for such a label.  The labels of a frame are pairwise
    distinct, as [read_csv] delivers them; for a repeated label [df[col]] is
    a frame and [.dtype] raises, a case that is not embedded. *)
Definition dtype_of (df : DataFrame) (col : string) : string :=
  match find (fun p => String.eqb (fst p) col) (df_columns df) with
  | Some p => snd p
  | None => "object"
  end.

(** [len(df)] *)
Definition len (df : DataFrame) : nat := List.length (df_values df).

(** [df.empty]: some axis has length zero. *)
Definition empty (df : DataFrame) : bool :=
  Nat.eqb (len df) 0 || Nat.eqb (List.length (columns df)) 0.

(** A value handed to the driver: Python's [None] (SQL NULL), the float
    [nan], or a value. *)
Inductive db_value : Type :=
| PyNone
| PyNaN
| PyValue (v : string).

(** [df_copy.where(pd.notnull(df_copy), None)] on one cell of a column whose
    dtype name is [dtype_str]: a missing cell of an [object] column becomes
    [None]; in a column of any other dtype pandas turns the [None] back into
    the dtype's own missing value, so the cell stays [nan]. *)
Definition where_notnull (dtype_str : string) (c : cell) : db_value :=
  match c with
  | Value v => PyValue v
  | NaN => if String.eqb dtype_str "object" then PyNone else PyNaN
  end.

(** The same on one row, cell by cell along the dtypes of the columns.  A row
    of a frame has one cell per column, so the case of a cell without a
    column is not reached. *)
Fixpoint where_notnull_row (dtypes : list string) (row : list cell)
  : list db_value :=
  match row with
  | [] => []
  | c :: rest =>
      match dtypes with
      | dtype_str :: dtypes' =>
          where_notnull dtype_str c :: where_notnull_row dtypes' rest
      | [] => where_notnull "object" c :: where_notnull_row [] rest
      end
  end.

(** [df.iloc[i:j]] on the rows. *)
Definition iloc (A : Type) (i j : nat) (rows : list A) : list A :=
  firstn (j - i) (skipn i rows).

(** [range(start, stop, step)] for a positive [step]; the counter [fuel]
    bounds the number of elements, and [stop] is always enough. *)
Fixpoint range_fuel (fuel start stop step : nat) : list nat :=
  match fuel with
  | O => []
  | S fuel' =>
      if start <? stop then start :: range_fuel fuel' (start + step) stop step
      else []
  end.

Definition range (start stop step : nat) : list nat :=
  range_fuel stop start stop step.

(** ** A Python dict with string keys: insertion-ordered; assigning to a key
    already present replaces the value and keeps the key's place. *)
Module Dict.

Definition t : Type := list (string * string).

Definition empty : t := [].

Fixpoint set (k v : string) (d : t) : t :=
  match d with
  | [] => [(k, v)]
  | (k', v') :: rest =>
      if String.eqb k' k then (k', v) :: rest
      else (k', v') :: set k v rest
  end.

Definition items (d : t) : list (string * string) := d.
Definition keys (d : t) : list string := map fst d.
Definition values (d : t) : list string := map snd d.

(** [{key: f(key) for key in ks}] *)
Definition comprehension (f : string -> string) (ks : list string) : t :=
  fold_left (fun d k => set k (f k) d) ks empty.

End Dict.

(** [x in xs] for a list of strings. *)
Definition str_in (x : string) (xs : list string) : bool :=
  existsb (fun y => String.eqb y x) xs.

(** ** The column identifiers of create_table (lines 104-118) *)
Definition create_table_sanitized_columns (df : DataFrame) : Dict.t :=
  (* Sanitize column names *)
  let sanitized_columns := Dict.comprehension sanitize_column_name (columns df) in
  (* Check if 'id' column already exists after sanitization *)
  let has_id_column :=
    str_in "id" (map Str.lower_string (Dict.values sanitized_columns)) in
  (* If 'id' column exists, rename it to avoid conflict with primary key *)
  if has_id_column then
    fold_left
      (fun new_sanitized_columns item =>
         let '(col, sanitized_col) := item in
         if String.eqb (Str.lower_string sanitized_col) "id"
         then Dict.set col "original_id" new_sanitized_columns
         else Dict.set col sanitized_col new_sanitized_columns)
      (Dict.items sanitized_columns) Dict.empty
  else sanitized_columns.

Definition create_table_identifiers (df : DataFrame) : list string :=
  Dict.values (create_table_sanitized_columns df).

(** [f'"{sanitized_col}" {pg_type}'] for every item, in order. *)
Definition columns_def (df : DataFrame) : list string :=
  map (fun item : string * string =>
         let '(col, sanitized_col) := item in
         let pg_type := get_postgres_type (dtype_of df col) in
         (Str.dquote ++ sanitized_col ++ Str.dquote ++ " " ++ pg_type)%string)
      (Dict.items (create_table_sanitized_columns df)).

Definition drop_query (table_name : string) : string :=
  ("DROP TABLE IF EXISTS " ++ Str.dquote ++ table_name ++ Str.dquote
   ++ " CASCADE;")%string.

Definition create_query (table_name : string) (df : DataFrame) : string :=
  let columns_str :=
    Str.join ("," ++ Str.newline ++ "    ")%string (columns_def df) in
  (Str.newline
   ++ "    CREATE TABLE " ++ Str.dquote ++ table_name ++ Str.dquote ++ " ("
   ++ Str.newline
   ++ "        id SERIAL PRIMARY KEY," ++ Str.newline
   ++ "        " ++ columns_str ++ Str.newline
   ++ "    );" ++ Str.newline
   ++ "    ")%string.

(** ** The column identifiers of insert_data (lines 159-165) *)
Definition insert_data_identifiers (df : DataFrame) : list string :=
  (* Sanitize column names *)
  let sanitized_columns := map sanitize_column_name (columns df) in
  (* Check if 'id' column exists and rename it to avoid conflict *)
  let has_id_column := str_in "id" (map Str.lower_string sanitized_columns) in
  if has_id_column then
    map (fun col => if String.eqb (Str.lower_string col) "id"
                    then "original_id" else col) sanitized_columns
  else sanitized_columns.

Definition insert_query (table_name : string) (df : DataFrame) : string :=
  let sanitized_columns := insert_data_identifiers df in
  let columns_str :=
    Str.join ", " (map (fun col => (Str.dquote ++ col ++ Str.dquote)%string)
                       sanitized_columns) in
  let placeholders :=
    Str.join ", " (repeat "%s" (List.length sanitized_columns)) in
  ("INSERT INTO " ++ Str.dquote ++ table_name ++ Str.dquote
   ++ " (" ++ columns_str ++ ") VALUES (" ++ placeholders ++ ")")%string.

Definition batch_size : nat := 1000.

(** The rows of [df_copy] after [where], each as a tuple. *)
Definition df_copy_rows (df : DataFrame) : list (list db_value) :=
  map (where_notnull_row (map snd (df_columns df))) (df_values df).

(** The batches of the loop at lines 183-186, in order. *)
Definition batches (A : Type) (size : nat) (rows : list A) : list (list A) :=
  map (fun i => iloc i (i + size) rows) (range 0 (List.length rows) size).

(** ** The database driver and the exception monad

    A Python exception is kept as its description, [str(e)].  The connection
    is observed through the calls issued on it, oldest first; a call either
    returns or raises, and an issued call is recorded in both cases. *)

Inductive Exception : Type :=
| Error (description : string).

Definition str_of (e : Exception) : string :=
  match e with Error description => description end.

Inductive db_call : Type :=
| Execute (query : string)
| ExecuteMany (query : string) (data : list (list db_value))
| Commit
| Rollback.

Inductive outcome (A : Type) : Type :=
| Returned (a : A)
| Raised (e : Exception).

Arguments Raised {A} e.

(** A computation reads the calls so far and yields an outcome and the calls
    after it. *)
Definition M (A : Type) : Type := list db_call -> outcome A * list db_call.

Definition ret (A : Type) (a : A) : M A := fun h => (Returned a, h).

Definition raise (A : Type) (e : Exception) : M A := fun h => (Raised e, h).

Definition bind (A B : Type) (m : M A) (k : A -> M B) : M B :=
  fun h =>
    match m h with
    | (Returned a, h') => k a h'
    | (Raised e, h') => (Raised e, h')
    end.

(** [try: body except Exception as e: handler(e)] *)
Definition try_except (A : Type) (body : M A) (handler : Exception -> M A)
  : M A :=
  fun h =>
    match body h with
    | (Returned a, h') => (Returned a, h')
    | (Raised e, h') => handler e h'
    end.

Declare Scope py_scope.
Delimit Scope py_scope with py.
Notation "x <- m ;; k" := (bind m (fun x => k))
  (at level 100, m at next level, right associativity) : py_scope.
Notation "m ;;; k" := (bind m (fun _ => k))
  (at level 100, right associativity) : py_scope.

(** [for x in xs: body(x)] *)
Fixpoint for_each (A : Type) (xs : list A) (body : A -> M unit) : M unit :=
  match xs with
  | [] => ret tt
  | x :: rest => bind (body x) (fun _ => for_each rest body)
  end.

(** The result dictionary of [load_csv_to_postgres]: the two shapes it is
    built in, told apart by the value under ['status']. *)
Inductive LoadResult : Type :=
| Success (filename table_name : string) (rows columns : nat)
| Failed (filename table_name : string) (error : string).

Definition result_filename (r : LoadResult) : string :=
  match r with
  | Success filename _ _ _ => filename
  | Failed filename _ _ => filename
  end.



Definition is_executemany (c : db_call) : bool :=
  match c with ExecuteMany _ _ => true | _ => false end.

Definition count (p : db_call -> bool) (calls : list db_call) : nat :=
  List.length (filter p calls).

Section Driver.

(** [raises h c]: the exception the driver raises when [c] is issued
    after the calls [h], if any. *)
Variable raises : list db_call -> db_call -> option Exception.

(** [pd.read_csv(csv_path, low_memory=False)] *)
Variable read_csv : string -> outcome DataFrame.

Local Open Scope py_scope.

Definition issue (c : db_call) : M unit :=
  fun h =>
    match raises h c with
    | None => (Returned tt, h ++ [c])
    | Some e => (Raised e, h ++ [c])
    end.

Definition execute (query : string) : M unit := issue (Execute query).

Definition executemany (query : string) (data : list (list db_value))
  : M unit := issue (ExecuteMany query data).

Definition commit : M unit := issue Commit.

Definition rollback : M unit := issue Rollback.

Definition create_table (table_name : string) (df : DataFrame) : M unit :=
  (* Drop table if exists and create new one *)
  execute (drop_query table_name) ;;;
  execute (create_query table_name df).

Definition insert_data (table_name : string) (df : DataFrame) : M nat :=
  if empty df then ret 0
  else
    let df_copy := df_copy_rows df in
    let insert_query := insert_query table_name df in
    (* Insert data in batches *)
    let total_rows := List.length df_copy in
    for_each (range 0 total_rows batch_size)
      (fun i =>
         let batch := iloc i (i + batch_size) df_copy in
         executemany insert_query batch) ;;;
    ret total_rows.

Definition load_csv_to_postgres (csv_path : string) : M LoadResult :=
  let filename := basename csv_path in
  let table_name := get_table_name_from_filename filename in
  try_except
    ((* Read CSV file *)
     df <- (fun h => (read_csv csv_path, h)) ;;
     (* Create table *)
     create_table table_name df ;;;
     (* Insert data *)
     rows_inserted <- insert_data table_name df ;;
     (* Commit transaction *)
     commit ;;;
     ret (Success filename table_name rows_inserted
                  (List.length (columns df))))
    (fun e =>
       rollback ;;;
       ret (Failed filename table_name (str_of e))).

(** The statements of the [try] block ahead of the commit: parsing,
    provisioning and loading. *)
Definition load_steps (csv_path : string) : M (DataFrame * nat) :=
  let filename := basename csv_path in
  let table_name := get_table_name_from_filename filename in
  df <- (fun h => (read_csv csv_path, h)) ;;
  create_table table_name df ;;;
  rows_inserted <- insert_data table_name df ;;
  ret (df, rows_inserted).

(** The loop of [main] (lines 304-308). *)
Fixpoint process_files (csv_files : list string) (results : list LoadResult)
  : M (list LoadResult) :=
  match csv_files with
  | [] => ret results
  | csv_file :: rest =>
      result <- load_csv_to_postgres csv_file ;;
      process_files rest (results ++ [result])
  end.

End Driver.

(** ** Sample inputs *)

(** The French label for age, with its first letter U+00C2, and its
    lower-case form, with U+00E2. *)
Definition label_Age : string := String (Char.chr 194) "ge".
Definition label_age : string := String (Char.chr 226) "ge".

(** [sub] occurs in [s] as a contiguous substring. *)
Definition occurs (sub s : string) : Prop :=
  exists pre post : string, s = (pre ++ sub ++ post)%string.

(** The rename of both code paths on one sanitized identifier. *)
Definition rename_id (sanitized_col : string) : string :=
  if String.eqb (Str.lower_string sanitized_col) "id" then "original_id"
  else sanitized_col.

(** Frames with given labels, every column of dtype [object], no rows. *)
Definition frame_of_labels (labels : list string) : DataFrame :=
  {| df_columns := map (fun label => (label, "object")) labels;
     df_values := [] |}.

(** ** Sample drivers, files and frames *)

(** A driver that accepts every call. *)
Definition driver_ok : list db_call -> db_call -> option Exception :=
  fun _ _ => None.

(** A driver that accepts every statement and fails at the commit. *)
Definition driver_commit_fails : list db_call -> db_call -> option Exception :=
  fun _ c =>
    match c with
    | Commit => Some (Error "server closed the connection unexpectedly")
    | _ => None
    end.


(** Columns [X], [Y] and two rows. *)
Definition frame_xy : DataFrame :=
  {| df_columns := [("X", "int64"); ("Y", "object")];
     df_values := [[Value "1"; NaN]; [Value "2"; Value "b"]] |}.

(** Columns [X], [Y] and no row. *)
Definition frame_xy_no_rows : DataFrame :=
  {| df_columns := [("X", "int64"); ("Y", "object")];
     df_values := [] |}.

(** One column and 2500 rows. *)
Definition frame_2500 : DataFrame :=
  {| df_columns := [("X", "int64")];
     df_values := repeat [Value "1"] 2500 |}.

(** Every path parses to the given frame. *)
Definition parses_to (df : DataFrame) : string -> outcome DataFrame :=
  fun _ => Returned df.

(** [data/b.csv] does not parse; every other path parses to [frame_xy]. *)
Definition files_a_b : string -> outcome DataFrame :=
  fun csv_path =>
    if String.eqb csv_path "data/b.csv"
    then Raised (Error "No columns to parse from file")
    else Returned frame_xy.


(** The value of [rows_inserted] for a dataset. *)
Definition rows_of (df : DataFrame) : nat :=
  if empty df then 0 else len df.

(** ** The statements of one load and the summary of main *)

(** The statements [create_table] and [insert_data] issue for a dataset, in
    order, when none raises. *)
Definition insert_batches (df : DataFrame) : list (list (list db_value)) :=
  if empty df then [] else batches batch_size (df_copy_rows df).

Definition statement_calls (table_name : string) (df : DataFrame)
  : list db_call :=
  [Execute (drop_query table_name); Execute (create_query table_name df)]
  ++ map (ExecuteMany (insert_query table_name df)) (insert_batches df).

(** [r['status'] == 'success'] and [r['status'] == 'failed'] *)
Definition is_success (r : LoadResult) : bool :=
  match r with Success _ _ _ _ => true | Failed _ _ _ => false end.

Definition is_failed (r : LoadResult) : bool :=
  match r with Success _ _ _ _ => false | Failed _ _ _ => true end.

(** [successful] and [failed] of [main] (lines 319-320). *)
Definition successful (results : list LoadResult) : list LoadResult :=
  filter is_success results.

Definition failed (results : list LoadResult) : list LoadResult :=
  filter is_failed results.

(** [r['rows']]; the key is present in the results of [successful], the only
    ones it is read from. *)
Definition result_rows (r : LoadResult) : nat :=
  match r with Success _ _ rows _ => rows | Failed _ _ _ => 0 end.

(** [total_rows] of [main] (line 326). *)
Definition total_rows (results : list LoadResult) : nat :=
  list_sum (map result_rows (successful results)).

(** The result of a file when the driver accepts every call. *)
Definition result_if_accepted (read_csv : string -> outcome DataFrame)
  (csv_path : string) : LoadResult :=
  let filename := basename csv_path in
  let table_name := get_table_name_from_filename filename in
  match read_csv csv_path with
  | Returned df =>
      Success filename table_name (rows_of df) (List.length (columns df))
  | Raised e => Failed filename table_name (str_of e)
  end.

(** The last character of a string, if any. *)
Definition last_char (s : string) : option ascii :=
  match rev (list_ascii_of_string s) with
  | [] => None
  | c :: _ => Some c
  end.

Definition first_char (s : string) : option ascii :=
  match list_ascii_of_string s with
  | [] => None
  | c :: _ => Some c
  end.

Definition result_table_name (r : LoadResult) : string :=
  match r with
  | Success _ table_name _ _ => table_name
  | Failed _ table_name _ => table_name
  end.

(** The identifier both code paths give to a label. *)
Definition identifier_of (label : string) : string :=
  if String.eqb (sanitize_column_name label) "id" then "original_id"
  else sanitize_column_name label.

(** Frames with the labels [Site], [ID.] and [Dose (mg)]. *)
Definition frame_site : DataFrame :=
  {| df_columns := [("Site", "object"); ("ID.", "int64");
                    ("Dose (mg)", "float64")];
     df_values := [[Value "A"; Value "7"; Value "2.5"]] |}.

(** ** Accepted calls and the files loaded by the loop *)

(** [accepted raises h calls]: issued one after the other on a connection
    with history [h], none of [calls] raises. *)
Fixpoint accepted (raises : list db_call -> db_call -> option Exception)
  (h : list db_call) (calls : list db_call) : Prop :=
  match calls with
  | [] => True
  | c :: rest => raises h c = None /\ accepted raises (h ++ [c]) rest
  end.



(** A driver that accepts the first insert and refuses every later one. *)
Definition driver_second_insert_fails
  : list db_call -> db_call -> option Exception :=
  fun h c =>
    match c with
    | ExecuteMany _ _ =>
        if existsb is_executemany h
        then Some (Error "value too long for type")
        else None
    | _ => None
    end.

(** * Properties *)

(** ** Character classes *)

Ltac each_char c :=
  destruct c as [[] [] [] [] [] [] [] []]; vm_compute; try reflexivity;
  try discriminate; auto.

Lemma to_lower_idem (c : ascii) :
  Char.to_lower (Char.to_lower c) = Char.to_lower c.
Proof. each_char c. Qed.

Lemma word_not_space (c : ascii) :
  Char.is_word c = true -> Char.is_space c = false.
Proof. each_char c. Qed.

Lemma digit_not_underscore (c : ascii) :
  Char.isdigit c = true -> Char.is_underscore c = false.
Proof. each_char c. Qed.

Lemma is_underscore_eq (c : ascii) :
  Char.is_underscore c = true -> c = Char.underscore.
Proof. unfold Char.is_underscore. apply Ascii.eqb_eq. Qed.

Lemma clean_underscore : clean_char Char.underscore = true.
Proof. reflexivity. Qed.

(** After lowering and the first substitution a character is a lower-case
    word character or white space. *)
Lemma first_pass_char (c : ascii) :
  let d := Char.to_lower c in
  let e := if Char.is_word d || Char.is_space d then d else Char.underscore in
  Ascii.eqb (Char.to_lower e) e = true
  /\ (Char.is_word e = true \/ Char.is_space e = true).
Proof. each_char c. Qed.

Lemma first_pass_ascii (c : ascii) :
  Char.is_ascii c = true ->
  let d := Char.to_lower c in
  Char.is_ascii (if Char.is_word d || Char.is_space d then d
                 else Char.underscore) = true.
Proof. each_char c. Qed.

Lemma clean_ascii_ident (c : ascii) :
  clean_char c = true -> Char.is_ascii c = true -> ident_char c = true.
Proof. each_char c. Qed.

Lemma clean_ascii_start (c : ascii) :
  clean_char c = true -> Char.is_ascii c = true ->
  Char.isdigit c = false -> ident_start c = true.
Proof. each_char c. Qed.

(** ** Substitution of runs *)

Lemma sub_runs_Forall (Q : ascii -> Prop) (p : ascii -> bool) :
  Q Char.underscore ->
  forall (s : list ascii) (b : bool),
    Forall Q s ->
    Forall (fun c => Q c /\ (p c = false \/ c = Char.underscore))
           (Re.sub_runs p b s).
Proof.
  intros Hu s. induction s as [|c s IH]; intros b Hs; simpl.
  - constructor.
  - inversion Hs as [|? ? Hc Hs']; subst.
    destruct (p c) eqn:Hp.
    + destruct b; [apply IH; assumption|].
      constructor; [split; [assumption | right; reflexivity]|].
      apply IH; assumption.
    + constructor; [split; [assumption | left; assumption]|].
      apply IH; assumption.
Qed.

Lemma sub_runs_id (p : ascii -> bool) (s : list ascii) (b : bool) :
  forallb (fun c => negb (p c)) s = true -> Re.sub_runs p b s = s.
Proof.
  revert b. induction s as [|c s IH]; intros b H; simpl in *.
  - reflexivity.
  - apply andb_true_iff in H. destruct H as [Hc Hs].
    destruct (p c); [discriminate|]. f_equal. apply IH. assumption.
Qed.

Lemma no_double_cons (c : ascii) (s : list ascii) :
  no_double_underscore (c :: s)
  = negb (Char.is_underscore c && head_is Char.is_underscore s)
    && no_double_underscore s.
Proof. destruct s; simpl; [rewrite andb_false_r|]; reflexivity. Qed.

Lemma sub_underscore_runs_head (s : list ascii) :
  head_is Char.is_underscore (Re.sub_runs Char.is_underscore true s) = false.
Proof.
  induction s as [|c s IH]; simpl; [reflexivity|].
  destruct (Char.is_underscore c) eqn:Hc; [assumption|].
  simpl. assumption.
Qed.

Lemma sub_underscore_runs_no_double (s : list ascii) (b : bool) :
  no_double_underscore (Re.sub_runs Char.is_underscore b s) = true.
Proof.
  revert b. induction s as [|c s IH]; intros b; simpl; [reflexivity|].
  destruct (Char.is_underscore c) eqn:Hc.
  - destruct b; [apply IH|].
    rewrite no_double_cons, sub_underscore_runs_head, IH, andb_false_r.
    reflexivity.
  - rewrite no_double_cons, Hc, IH. reflexivity.
Qed.

Lemma sub_underscore_runs_id (s : list ascii) (b : bool) :
  no_double_underscore s = true ->
  (b = true -> head_is Char.is_underscore s = false) ->
  Re.sub_runs Char.is_underscore b s = s.
Proof.
  revert b. induction s as [|c s IH]; intros b Hnd Hb; simpl; [reflexivity|].
  rewrite no_double_cons in Hnd. apply andb_true_iff in Hnd.
  destruct Hnd as [Hc Hs].
  destruct (Char.is_underscore c) eqn:Hu.
  - simpl in Hc. apply negb_true_iff in Hc.
    destruct b; [specialize (Hb eq_refl); simpl in Hb; congruence|].
    rewrite (is_underscore_eq _ Hu). f_equal.
    apply IH; [assumption | intros _; assumption].
  - f_equal. apply IH; [assumption | discriminate].
Qed.

(** ** strip *)

Lemma drop_while_suffix (p : ascii -> bool) (s : list ascii) :
  exists t, s = t ++ Str.drop_while p s.
Proof.
  induction s as [|c s [t Ht]]; simpl.
  - exists []. reflexivity.
  - destruct (p c).
    + exists (c :: t). simpl. f_equal. assumption.
    + exists []. reflexivity.
Qed.

Lemma drop_while_head (p : ascii -> bool) (s : list ascii) :
  head_is p (Str.drop_while p s) = false.
Proof.
  induction s as [|c s IH]; simpl; [reflexivity|].
  destruct (p c) eqn:Hc; [assumption | simpl; assumption].
Qed.

Lemma drop_while_id (p : ascii -> bool) (s : list ascii) :
  head_is p s = false -> Str.drop_while p s = s.
Proof. destruct s as [|c s]; simpl; [reflexivity|]. intros ->. reflexivity. Qed.

Lemma rstrip_prefix (p : ascii -> bool) (s : list ascii) :
  exists t, s = Str.rstrip p s ++ t.
Proof.
  unfold Str.rstrip. destruct (drop_while_suffix p (rev s)) as [t Ht].
  exists (rev t). rewrite <- rev_app_distr, <- Ht, rev_involutive.
  reflexivity.
Qed.

Lemma no_double_app_l (a b : list ascii) :
  no_double_underscore (a ++ b) = true -> no_double_underscore a = true.
Proof.
  induction a as [|c a IH]; intros H; [reflexivity|].
  simpl app in H. rewrite no_double_cons in *.
  apply andb_true_iff in H. destruct H as [Hc Ha].
  rewrite (IH Ha), andb_true_r.
  destruct a as [|d a]; simpl in *; [rewrite andb_false_r; reflexivity|].
  assumption.
Qed.

Lemma no_double_app_r (a b : list ascii) :
  no_double_underscore (a ++ b) = true -> no_double_underscore b = true.
Proof.
  induction a as [|c a IH]; intros H; [assumption|].
  simpl app in H. rewrite no_double_cons in H.
  apply andb_true_iff in H. apply IH. apply H.
Qed.

Lemma head_is_app (p : ascii -> bool) (a b : list ascii) :
  a <> [] -> head_is p (a ++ b) = head_is p a.
Proof. destruct a; [congruence | reflexivity]. Qed.

Section Strip.

Variable p : ascii -> bool.
Variable s : list ascii.

Lemma strip_decompose :
  exists a b, s = a ++ Str.strip p s ++ b.
Proof.
  unfold Str.strip, Str.lstrip.
  destruct (drop_while_suffix p s) as [a Ha].
  destruct (rstrip_prefix p (Str.drop_while p s)) as [b Hb].
  exists a, b. rewrite <- Hb. assumption.
Qed.

Lemma strip_head : head_is p (Str.strip p s) = false.
Proof.
  unfold Str.strip, Str.lstrip.
  destruct (rstrip_prefix p (Str.drop_while p s)) as [b Hb].
  pose proof (drop_while_head p s) as Hh. rewrite Hb in Hh.
  destruct (Str.rstrip p (Str.drop_while p s)) as [|c r];
    [reflexivity | exact Hh].
Qed.

Lemma strip_last : head_is p (rev (Str.strip p s)) = false.
Proof.
  unfold Str.strip, Str.rstrip. rewrite rev_involutive.
  apply drop_while_head.
Qed.

Lemma strip_id :
  head_is p s = false -> head_is p (rev s) = false -> Str.strip p s = s.
Proof.
  intros Hh Hl. unfold Str.strip, Str.lstrip, Str.rstrip.
  rewrite (drop_while_id _ _ Hh), (drop_while_id _ _ Hl).
  apply rev_involutive.
Qed.

End Strip.

(** ** sanitize_chars yields canonical names and fixes them *)

Lemma Forall_app_mid (A : Type) (Q : A -> Prop) (a m b : list A) :
  Forall Q (a ++ m ++ b) -> Forall Q m.
Proof.
  intros H. apply Forall_app in H. destruct H as [_ H].
  apply Forall_app in H. apply H.
Qed.

Lemma first_pass_Forall (y : list ascii) :
  Forall (fun e => Ascii.eqb (Char.to_lower e) e = true
                   /\ (Char.is_word e = true \/ Char.is_space e = true))
         (Re.sub_nonword_nonspace (Str.lower y)).
Proof.
  unfold Re.sub_nonword_nonspace, Str.lower. rewrite map_map.
  induction y as [|c y IH]; simpl; constructor; [|assumption].
  apply (first_pass_char c).
Qed.

Lemma collapsed_clean (y : list ascii) :
  Forall (fun c => clean_char c = true)
         (Re.sub_underscore_runs
            (Re.sub_space_runs (Re.sub_nonword_nonspace (Str.lower y)))).
Proof.
  unfold Re.sub_underscore_runs, Re.sub_space_runs.
  eapply Forall_impl;
    [| apply sub_runs_Forall with (Q := fun c => clean_char c = true);
       [exact clean_underscore|] ].
  - intros c [H _]. exact H.
  - eapply Forall_impl;
      [| apply sub_runs_Forall; [| apply first_pass_Forall] ].
    + intros c [[Hl Hw] Hs]. unfold clean_char.
      destruct Hs as [Hs | ->]; [|reflexivity].
      destruct Hw as [Hw | Hw]; [|congruence].
      rewrite Hw, Hl. reflexivity.
    + split; [reflexivity | left; reflexivity].
Qed.

Section Stripped.

Variable y : list ascii.

Let name : list ascii :=
  Str.strip Char.is_underscore
    (Re.sub_underscore_runs
       (Re.sub_space_runs (Re.sub_nonword_nonspace (Str.lower y)))).

Lemma stripped_clean : forallb clean_char name = true.
Proof.
  apply forallb_forall. apply Forall_forall.
  destruct (strip_decompose Char.is_underscore
              (Re.sub_underscore_runs
                 (Re.sub_space_runs
                    (Re.sub_nonword_nonspace (Str.lower y)))))
    as (a & b & Hab).
  pose proof (collapsed_clean y) as H. rewrite Hab in H.
  apply Forall_app_mid in H. exact H.
Qed.

Lemma stripped_no_double : no_double_underscore name = true.
Proof.
  destruct (strip_decompose Char.is_underscore
              (Re.sub_underscore_runs
                 (Re.sub_space_runs
                    (Re.sub_nonword_nonspace (Str.lower y)))))
    as (a & b & Hab).
  pose proof (sub_underscore_runs_no_double
                (Re.sub_space_runs (Re.sub_nonword_nonspace (Str.lower y)))
                false) as H.
  fold (Re.sub_underscore_runs
          (Re.sub_space_runs (Re.sub_nonword_nonspace (Str.lower y)))) in H.
  rewrite Hab in H.
  apply no_double_app_r in H. apply no_double_app_l in H. exact H.
Qed.

Lemma stripped_head : head_is Char.is_underscore name = false.
Proof. apply strip_head. Qed.

Lemma stripped_last : head_is Char.is_underscore (rev name) = false.
Proof. apply strip_last. Qed.

End Stripped.

Lemma canonical_intro (s : list ascii) :
  forallb clean_char s = true ->
  no_double_underscore s = true ->
  head_is Char.is_underscore s = false ->
  head_is Char.is_underscore (rev s) = false ->
  Str.starts_with_digit s = false ->
  s <> [] ->
  canonical s = true.
Proof.
  intros H1 H2 H3 H4 H5 H6. unfold canonical.
  rewrite H1, H2, H3, H4, H5. destruct s; [congruence | reflexivity].
Qed.

Lemma canonical_elim (s : list ascii) :
  canonical s = true ->
  forallb clean_char s = true
  /\ no_double_underscore s = true
  /\ head_is Char.is_underscore s = false
  /\ head_is Char.is_underscore (rev s) = false
  /\ Str.starts_with_digit s = false
  /\ Str.is_empty s = false.
Proof.
  unfold canonical. intros H.
  repeat (apply andb_true_iff in H; destruct H as [H ?]).
  repeat match goal with
         | Hn : negb _ = true |- _ => apply negb_true_iff in Hn
         end.
  repeat split; assumption.
Qed.

Lemma sanitize_chars_canonical (y : list ascii) :
  canonical (sanitize_chars y) = true.
Proof.
  unfold sanitize_chars.
  pose proof (stripped_clean y) as Hc.
  pose proof (stripped_no_double y) as Hn.
  pose proof (stripped_head y) as Hh.
  pose proof (stripped_last y) as Hl.
  cbv zeta in *.
  set (name := Str.strip Char.is_underscore _) in *.
  destruct (Str.starts_with_digit name) eqn:Hd.
  - destruct name as [|d rest]; [discriminate|]. simpl in Hd.
    change (Str.is_empty (list_ascii_of_string "col_" ++ d :: rest))
      with false. cbv iota.
    apply canonical_intro.
    + change (list_ascii_of_string "col_" ++ d :: rest)
        with (list_ascii_of_string "col_" ++ (d :: rest)).
      rewrite forallb_app, Hc. reflexivity.
    + change (no_double_underscore
                ("c" :: "o" :: "l" :: "_" :: d :: rest)%char = true).
      do 4 rewrite no_double_cons. rewrite Hn.
      simpl head_is. rewrite (digit_not_underscore _ Hd). reflexivity.
    + reflexivity.
    + rewrite rev_app_distr, head_is_app; [exact Hl|].
      simpl. intros E. apply app_eq_nil in E. destruct E; discriminate.
    + reflexivity.
    + discriminate.
  - destruct name as [|d rest] eqn:E.
    + reflexivity.
    + cbv iota beta. simpl Str.is_empty. cbv iota.
      apply canonical_intro; try assumption. discriminate.
Qed.

Lemma sanitize_chars_fix (s : list ascii) :
  canonical s = true -> sanitize_chars s = s.
Proof.
  intros H. apply canonical_elim in H.
  destruct H as (Hc & Hn & Hh & Hl & Hd & He).
  assert (Hall : forall c, In c s -> clean_char c = true)
    by (apply forallb_forall; assumption).
  assert (H1 : Str.lower s = s).
  { unfold Str.lower. rewrite <- (map_id s) at 2. apply map_ext_in.
    intros c Hin. specialize (Hall c Hin). unfold clean_char in Hall.
    apply andb_true_iff in Hall. apply Ascii.eqb_eq. apply Hall. }
  assert (H2 : Re.sub_nonword_nonspace s = s).
  { unfold Re.sub_nonword_nonspace. rewrite <- (map_id s) at 2.
    apply map_ext_in. intros c Hin. specialize (Hall c Hin).
    unfold clean_char in Hall. apply andb_true_iff in Hall.
    destruct Hall as [-> _]. reflexivity. }
  assert (H3 : Re.sub_space_runs s = s).
  { apply sub_runs_id. apply forallb_forall. intros c Hin.
    specialize (Hall c Hin). unfold clean_char in Hall.
    apply andb_true_iff in Hall. destruct Hall as [Hw _].
    rewrite (word_not_space _ Hw). reflexivity. }
  assert (H4 : Re.sub_underscore_runs s = s)
    by (apply sub_underscore_runs_id; [assumption | discriminate]).
  unfold sanitize_chars. cbv zeta.
  rewrite H1, H2, H3, H4, (strip_id _ _ Hh Hl), Hd, He. reflexivity.
Qed.

Lemma sanitize_chars_idem (y : list ascii) :
  sanitize_chars (sanitize_chars y) = sanitize_chars y.
Proof. apply sanitize_chars_fix, sanitize_chars_canonical. Qed.

Lemma sanitize_column_name_idem (y : string) :
  sanitize_column_name (sanitize_column_name y) = sanitize_column_name y.
Proof.
  unfold sanitize_column_name.
  rewrite list_ascii_of_string_of_list_ascii, sanitize_chars_idem.
  reflexivity.
Qed.

Lemma sanitize_chars_ascii (y : list ascii) :
  forallb Char.is_ascii y = true ->
  forallb Char.is_ascii (sanitize_chars y) = true.
Proof.
  intros Hy.
  assert (H1 : Forall (fun c => Char.is_ascii c = true)
                 (Re.sub_nonword_nonspace (Str.lower y))).
  { unfold Re.sub_nonword_nonspace, Str.lower. rewrite map_map.
    apply Forall_forall. intros c Hin. apply in_map_iff in Hin.
    destruct Hin as (d & <- & Hd). apply first_pass_ascii.
    revert d Hd. apply forallb_forall. assumption. }
  assert (H2 : Forall (fun c => Char.is_ascii c = true)
                 (Re.sub_underscore_runs
                    (Re.sub_space_runs
                       (Re.sub_nonword_nonspace (Str.lower y))))).
  { unfold Re.sub_underscore_runs, Re.sub_space_runs.
    eapply Forall_impl;
      [| apply sub_runs_Forall with (Q := fun c => Char.is_ascii c = true);
         [reflexivity|] ].
    - intros c [H _]. exact H.
    - eapply Forall_impl;
        [| apply sub_runs_Forall
             with (Q := fun c => Char.is_ascii c = true);
           [reflexivity | exact H1] ].
      intros c [H _]. exact H. }
  destruct (strip_decompose Char.is_underscore
              (Re.sub_underscore_runs
                 (Re.sub_space_runs (Re.sub_nonword_nonspace (Str.lower y)))))
    as (a & b & Hab).
  rewrite Hab in H2. apply Forall_app_mid in H2.
  pose proof (proj1 (Forall_forall _ _) H2) as H2'.
  assert (H3 : forallb Char.is_ascii
                 (Str.strip Char.is_underscore
                    (Re.sub_underscore_runs
                       (Re.sub_space_runs
                          (Re.sub_nonword_nonspace (Str.lower y))))) = true)
    by (apply forallb_forall; exact H2').
  unfold sanitize_chars. cbv zeta.
  set (name := Str.strip Char.is_underscore _) in *.
  destruct (Str.starts_with_digit name).
  - destruct name as [|d rest]; [reflexivity|].
    change (forallb Char.is_ascii (d :: rest) = true). exact H3.
  - destruct name as [|d rest]; [reflexivity | exact H3].
Qed.

Lemma canonical_ascii_matches (s : list ascii) :
  canonical s = true -> forallb Char.is_ascii s = true ->
  matches_identifier (string_of_list_ascii s) = true.
Proof.
  intros H Ha. apply canonical_elim in H.
  destruct H as (Hc & _ & _ & _ & Hd & He).
  unfold matches_identifier. rewrite list_ascii_of_string_of_list_ascii.
  destruct s as [|c rest]; [discriminate|].
  simpl in Hc, Ha, Hd.
  apply andb_true_iff in Hc. destruct Hc as [Hc Hr].
  apply andb_true_iff in Ha. destruct Ha as [Ha Har].
  rewrite (clean_ascii_start _ Hc Ha Hd). simpl.
  apply forallb_forall. intros d Hin.
  apply clean_ascii_ident.
  - revert d Hin. apply forallb_forall. assumption.
  - revert d Hin. apply forallb_forall. assumption.
Qed.

(** C6 (counterexample).  The label [label_Age] is lowered to [label_age],
    whose three characters are word characters: the result is [label_age],
    which neither matches [^[a-z_][a-z0-9_]*$] nor is [unnamed_column]. *)
Lemma sanitize_pattern_counterexample :
  sanitize_column_name label_Age = label_age
  /\ matches_identifier (sanitize_column_name label_Age) = false
  /\ sanitize_column_name label_Age <> "unnamed_column".
Proof. repeat split. vm_compute. discriminate. Qed.

(** C6 (amended).  For every label of ASCII characters the result of
    [sanitize_column_name] matches [^[a-z_][a-z0-9_]*$] (the literal
    [unnamed_column] does); for every label whatsoever the result is not
    empty and does not start with a digit; and the four examples of the
    specification hold. *)
Theorem sanitize_output_shape :
  (forall label : string,
      is_ascii_string label = true ->
      matches_identifier (sanitize_column_name label) = true)
  /\ (forall label : string,
         sanitize_column_name label <> EmptyString
         /\ starts_with_digit (sanitize_column_name label) = false)
  /\ sanitize_column_name "Patient ID" = "patient_id"
  /\ sanitize_column_name "2nd-Dose (mg)" = "col_2nd_dose_mg"
  /\ sanitize_column_name EmptyString = "unnamed_column"
  /\ sanitize_column_name "___" = "unnamed_column".
Proof.
  split; [|split; [|repeat split]].
  - intros label Ha. unfold sanitize_column_name.
    apply canonical_ascii_matches.
    + apply sanitize_chars_canonical.
    + apply sanitize_chars_ascii. exact Ha.
  - intros label.
    pose proof (sanitize_chars_canonical (list_ascii_of_string label)) as H.
    apply canonical_elim in H. destruct H as (_ & _ & _ & _ & Hd & He).
    unfold starts_with_digit, sanitize_column_name.
    rewrite list_ascii_of_string_of_list_ascii. split; [|exact Hd].
    destruct (sanitize_chars (list_ascii_of_string label));
      [discriminate He | discriminate].
Qed.

Lemma sanitize_output_shape_witness :
  is_ascii_string "2nd-Dose (mg)" = true
  /\ matches_identifier (sanitize_column_name "2nd-Dose (mg)") = true.
Proof.
  split; [reflexivity|].
  apply (proj1 sanitize_output_shape). reflexivity.
Defined.

(** C9.  [sanitize_column_name] is idempotent on its outputs: for every [x]
    that is the result of sanitizing some label, sanitizing [x] twice gives
    the same as sanitizing it once. *)
Theorem sanitize_idempotent (x : string) :
  (exists y : string, x = sanitize_column_name y) ->
  sanitize_column_name (sanitize_column_name x) = sanitize_column_name x.
Proof. intros _. apply sanitize_column_name_idem. Qed.

Lemma sanitize_idempotent_witness :
  (exists y : string, "col_2nd_dose_mg" = sanitize_column_name y)
  /\ sanitize_column_name (sanitize_column_name "col_2nd_dose_mg")
     = sanitize_column_name "col_2nd_dose_mg".
Proof.
  assert (H : exists y : string, "col_2nd_dose_mg" = sanitize_column_name y)
    by (exists "2nd-Dose (mg)"; reflexivity).
  split; [exact H | exact (sanitize_idempotent H)].
Defined.

(** ** Substring tests *)

Lemma prefix_spec (sub s : string) :
  String.prefix sub s = true <-> exists post, s = (sub ++ post)%string.
Proof.
  revert s. induction sub as [|c sub IH]; intros s.
  - split; [intros _; exists s; reflexivity | destruct s; reflexivity].
  - destruct s as [|d s]; simpl.
    + split; [discriminate | intros [post H]; discriminate].
    + destruct (Ascii.ascii_dec c d) as [->|Hne].
      * rewrite IH. split; intros [post H]; exists post.
        -- rewrite H. reflexivity.
        -- injection H as H. exact H.
      * split; [discriminate|]. intros [post H]. injection H as H1 H2.
        congruence.
Qed.

Lemma contains_spec (sub s : string) :
  Str.contains sub s = true <-> occurs sub s.
Proof.
  unfold occurs. induction s as [|d s IH].
  - cbn [Str.contains]. rewrite orb_false_r, prefix_spec. split.
    + intros [post H]. exists EmptyString, post. exact H.
    + intros (pre & post & H). destruct pre; [exists post; exact H|].
      discriminate.
  - cbn [Str.contains]. rewrite orb_true_iff, prefix_spec, IH. split.
    + intros [[post H] | (pre & post & H)].
      * exists EmptyString, post. exact H.
      * exists (String d pre), post. rewrite H. reflexivity.
    + intros (pre & post & H). destruct pre as [|c pre].
      * left. exists post. exact H.
      * right. injection H as _ H. exists pre, post. exact H.
Qed.

Lemma contains_false (sub s : string) :
  ~ occurs sub s -> Str.contains sub s = false.
Proof.
  intros H. destruct (Str.contains sub s) eqn:E; [|reflexivity].
  apply contains_spec in E. contradiction.
Qed.

(** C7.  [get_postgres_type] is total on dtype names and returns one of the
    six tags, decided by the first of the markers [int], [float], [bool],
    [datetime], [date] that occurs in the name, in that order, and [TEXT]
    when none occurs. *)
Theorem get_postgres_type_precedence (dtype_str : string) :
  In (get_postgres_type dtype_str) postgres_types
  /\ get_postgres_type dtype_str = first_match precedence_rules "TEXT" dtype_str
  /\ (occurs "int" dtype_str -> get_postgres_type dtype_str = "BIGINT")
  /\ (~ occurs "int" dtype_str -> occurs "float" dtype_str ->
      get_postgres_type dtype_str = "DOUBLE PRECISION")
  /\ (~ occurs "int" dtype_str -> ~ occurs "float" dtype_str ->
      occurs "bool" dtype_str -> get_postgres_type dtype_str = "BOOLEAN")
  /\ (~ occurs "int" dtype_str -> ~ occurs "float" dtype_str ->
      ~ occurs "bool" dtype_str -> occurs "datetime" dtype_str ->
      get_postgres_type dtype_str = "TIMESTAMP")
  /\ (~ occurs "int" dtype_str -> ~ occurs "float" dtype_str ->
      ~ occurs "bool" dtype_str -> ~ occurs "datetime" dtype_str ->
      occurs "date" dtype_str -> get_postgres_type dtype_str = "DATE")
  /\ (~ occurs "int" dtype_str -> ~ occurs "float" dtype_str ->
      ~ occurs "bool" dtype_str -> ~ occurs "datetime" dtype_str ->
      ~ occurs "date" dtype_str -> get_postgres_type dtype_str = "TEXT").
Proof.
  split; [|split].
  - unfold get_postgres_type, postgres_types.
    repeat match goal with
           | |- context [if ?b then _ else _] => destruct b
           end; simpl; tauto.
  - reflexivity.
  - unfold get_postgres_type.
    repeat split; intros;
      repeat match goal with
             | H : occurs _ _ |- _ => apply contains_spec in H; rewrite H
             | H : ~ occurs _ _ |- _ => apply contains_false in H; rewrite H
             end; reflexivity.
Qed.

Lemma get_postgres_type_precedence_witness :
  (~ occurs "int" "datetime64[ns]" /\ ~ occurs "float" "datetime64[ns]"
   /\ ~ occurs "bool" "datetime64[ns]" /\ occurs "datetime" "datetime64[ns]")
  /\ get_postgres_type "datetime64[ns]" = "TIMESTAMP".
Proof.
  assert (Hn : forall sub, Str.contains sub "datetime64[ns]" = false ->
                           ~ occurs sub "datetime64[ns]").
  { intros sub Hf Ho. apply contains_spec in Ho. congruence. }
  assert (Hd : occurs "datetime" "datetime64[ns]")
    by (exists EmptyString, "64[ns]"; reflexivity).
  split.
  - repeat split; try exact Hd; apply Hn; reflexivity.
  - apply (proj1 (proj2 (proj2 (proj2 (proj2
             (proj2 (get_postgres_type_precedence "datetime64[ns]")))))));
      try exact Hd; apply Hn; reflexivity.
Defined.

(** C5 (the code at the failing inputs).  [str.replace] removes every
    occurrence of [.csv], not only the extension at the end. *)
Theorem get_table_name_removes_every_csv :
  get_table_name_from_filename "site.csv_export.csv" = "site_export"
  /\ get_table_name_from_filename "visits.csv.csv" = "visits"
  /\ get_table_name_from_filename "visits.csv" = "visits".
Proof. repeat split. Qed.

(** ** The dictionary and the two rename paths *)

Lemma dict_set_fresh (k v : string) (d : Dict.t) :
  ~ In k (Dict.keys d) -> Dict.set k v d = d ++ [(k, v)].
Proof.
  induction d as [|[k' v'] d IH]; simpl; intros H; [reflexivity|].
  destruct (String.eqb_spec k' k) as [->|Hne].
  - exfalso. apply H. left. reflexivity.
  - f_equal. apply IH. intros Hin. apply H. right. exact Hin.
Qed.

Section FoldSet.

Variable X : Type.
Variable step : Dict.t -> X -> Dict.t.
Variable key val : X -> string.
Hypothesis step_sets : forall d x, step d x = Dict.set (key x) (val x) d.

Lemma fold_set_fresh (xs : list X) :
  forall d0 : Dict.t,
    NoDup (map key xs) ->
    (forall x, In x xs -> ~ In (key x) (Dict.keys d0)) ->
    fold_left step xs d0 = d0 ++ map (fun x => (key x, val x)) xs.
Proof.
  induction xs as [|a xs IH]; intros d0 Hnd Hfresh; simpl.
  - rewrite app_nil_r. reflexivity.
  - inversion Hnd as [|? ? Ha Hnd']; subst.
    rewrite step_sets, dict_set_fresh by (apply Hfresh; left; reflexivity).
    rewrite IH; [rewrite <- app_assoc; reflexivity | exact Hnd' |].
    intros x Hx Hin. unfold Dict.keys in Hin.
    rewrite map_app in Hin. apply in_app_or in Hin.
    destruct Hin as [Hin | [Hin | []]].
    + apply (Hfresh x (or_intror Hx)). exact Hin.
    + simpl in Hin. apply Ha. rewrite Hin. apply in_map. exact Hx.
Qed.

End FoldSet.

Lemma comprehension_nodup (f : string -> string) (ks : list string) :
  NoDup ks -> Dict.comprehension f ks = map (fun k => (k, f k)) ks.
Proof.
  intros H. unfold Dict.comprehension.
  rewrite (@fold_set_fresh string _ (fun k => k) f); auto.
  rewrite map_id. exact H.
Qed.

Lemma str_in_false (x : string) (xs : list string) :
  str_in x xs = false -> forall y, In y xs -> String.eqb y x = false.
Proof.
  unfold str_in. intros H y Hy.
  destruct (String.eqb y x) eqn:E; [|reflexivity].
  assert (existsb (fun y => String.eqb y x) xs = true)
    by (apply existsb_exists; exists y; split; assumption).
  congruence.
Qed.

(** The test [has_id_column] only short-cuts a rename that would change
    nothing. *)
Lemma rename_gate (l : list string) :
  (if str_in "id" (map Str.lower_string l) then map rename_id l else l)
  = map rename_id l.
Proof.
  destruct (str_in "id" (map Str.lower_string l)) eqn:E; [reflexivity|].
  rewrite <- (map_id l) at 1. apply map_ext_in. intros s Hs.
  unfold rename_id.
  rewrite (str_in_false _ _ E (Str.lower_string s)); [reflexivity|].
  apply in_map. exact Hs.
Qed.

Lemma insert_data_identifiers_eq (df : DataFrame) :
  insert_data_identifiers df
  = map rename_id (map sanitize_column_name (columns df)).
Proof. unfold insert_data_identifiers. apply rename_gate. Qed.

Lemma create_table_sanitized_columns_eq (df : DataFrame) :
  NoDup (columns df) ->
  create_table_sanitized_columns df
  = map (fun col => (col, rename_id (sanitize_column_name col))) (columns df).
Proof.
  intros Hnd. unfold create_table_sanitized_columns.
  rewrite (comprehension_nodup _ Hnd).
  unfold Dict.values, Dict.items.
  rewrite (map_map (fun k => (k, sanitize_column_name k)) snd).
  change (map (fun x : string => snd (x, sanitize_column_name x)) (columns df))
    with (map sanitize_column_name (columns df)).
  destruct (str_in "id"
              (map Str.lower_string (map sanitize_column_name (columns df))))
    eqn:E.
  - rewrite (@fold_set_fresh (string * string) _ fst
               (fun item => rename_id (snd item))).
    + simpl. rewrite map_map. reflexivity.
    + intros d [col sanitized_col]. unfold rename_id. simpl.
      destruct (String.eqb (Str.lower_string sanitized_col) "id");
        reflexivity.
    + rewrite map_map. simpl. rewrite map_id. exact Hnd.
    + intros x _ [].
  - apply map_ext_in. intros col Hcol. f_equal. unfold rename_id.
    rewrite (str_in_false _ _ E); [reflexivity|].
    apply in_map, in_map. exact Hcol.
Qed.

Lemma create_table_identifiers_eq (df : DataFrame) :
  NoDup (columns df) ->
  create_table_identifiers df
  = map rename_id (map sanitize_column_name (columns df)).
Proof.
  intros Hnd. unfold create_table_identifiers, Dict.values.
  rewrite (create_table_sanitized_columns_eq df Hnd), !map_map. reflexivity.
Qed.

(** C1.  For every dataset (its labels pairwise distinct, as [read_csv]
    delivers them) the identifiers of [create_table] and those recomputed by
    [insert_data] are the same list; for the labels [id], [Name] both are
    [original_id], [name]. *)
Theorem create_insert_identifiers_agree :
  (forall df : DataFrame,
      NoDup (columns df) ->
      create_table_identifiers df = insert_data_identifiers df)
  /\ (forall (dtype_id dtype_name : string) (rows : list (list cell)),
         let df := {| df_columns := [("id", dtype_id); ("Name", dtype_name)];
                      df_values := rows |} in
         create_table_identifiers df = ["original_id"; "name"]
         /\ insert_data_identifiers df = ["original_id"; "name"]).
Proof.
  split.
  - intros df Hnd.
    rewrite (create_table_identifiers_eq df Hnd), insert_data_identifiers_eq.
    reflexivity.
  - intros. split; reflexivity.
Qed.

Lemma create_insert_identifiers_agree_witness :
  NoDup (columns (frame_of_labels ["Patient ID"; "id"; "2nd-Dose (mg)"]))
  /\ create_table_identifiers
       (frame_of_labels ["Patient ID"; "id"; "2nd-Dose (mg)"])
     = insert_data_identifiers
         (frame_of_labels ["Patient ID"; "id"; "2nd-Dose (mg)"]).
Proof.
  assert (H : NoDup (columns (frame_of_labels
                                ["Patient ID"; "id"; "2nd-Dose (mg)"]))).
  { simpl. repeat constructor; simpl; intuition discriminate. }
  split; [exact H | exact (proj1 create_insert_identifiers_agree _ H)].
Defined.

Lemma lower_sanitize (label : string) :
  Str.lower_string (sanitize_column_name label) = sanitize_column_name label.
Proof.
  unfold Str.lower_string, sanitize_column_name.
  rewrite list_ascii_of_string_of_list_ascii. f_equal.
  pose proof (sanitize_chars_canonical (list_ascii_of_string label)) as H.
  apply canonical_elim in H. destruct H as (Hc & _).
  unfold Str.lower.
  rewrite <- (map_id (sanitize_chars (list_ascii_of_string label))) at 2.
  apply map_ext_in. intros c Hin.
  assert (Hcl : clean_char c = true)
    by (revert c Hin; apply forallb_forall; exact Hc).
  unfold clean_char in Hcl. apply andb_true_iff in Hcl.
  apply Ascii.eqb_eq. apply Hcl.
Qed.

Lemma rename_id_sanitize (label : string) :
  rename_id (sanitize_column_name label)
  = if String.eqb (sanitize_column_name label) "id" then "original_id"
    else sanitize_column_name label.
Proof. unfold rename_id. rewrite lower_sanitize. reflexivity. Qed.

Lemma lower_rename_id_sanitize (label : string) :
  Str.lower_string (rename_id (sanitize_column_name label))
  = rename_id (sanitize_column_name label).
Proof.
  rewrite rename_id_sanitize.
  destruct (String.eqb (sanitize_column_name label) "id");
    [reflexivity | apply lower_sanitize].
Qed.

(** C10.  The rename looks at the sanitized identifier: the labels [ID.] and
    [_id_], neither of them [id] or [ID], sanitize to [id] and are renamed
    to [original_id] by [create_table] and by [insert_data] alike; and so is,
    in every dataset, each column whose label sanitizes to [id]. *)
Theorem rename_on_sanitized_identifier :
  (sanitize_column_name "ID." = "id" /\ sanitize_column_name "_id_" = "id")
  /\ (create_table_identifiers (frame_of_labels ["ID."; "Name"])
      = ["original_id"; "name"]
      /\ insert_data_identifiers (frame_of_labels ["ID."; "Name"])
         = ["original_id"; "name"])
  /\ (create_table_identifiers (frame_of_labels ["Name"; "_id_"])
      = ["name"; "original_id"]
      /\ insert_data_identifiers (frame_of_labels ["Name"; "_id_"])
         = ["name"; "original_id"])
  /\ (forall (df : DataFrame) (label : string) (i : nat),
         NoDup (columns df) ->
         nth_error (columns df) i = Some label ->
         sanitize_column_name label = "id" ->
         nth_error (create_table_identifiers df) i = Some "original_id"
         /\ nth_error (insert_data_identifiers df) i = Some "original_id").
Proof.
  split; [split; reflexivity|]. split; [split; reflexivity|].
  split; [split; reflexivity|].
  intros df label i Hnd Hnth Hid. split.
  - rewrite (create_table_identifiers_eq df Hnd), !nth_error_map, Hnth. simpl.
    rewrite rename_id_sanitize, Hid. reflexivity.
  - rewrite insert_data_identifiers_eq, !nth_error_map, Hnth. simpl.
    rewrite rename_id_sanitize, Hid. reflexivity.
Qed.

Lemma rename_on_sanitized_identifier_witness :
  (NoDup (columns (frame_of_labels ["Site"; "ID."]))
   /\ nth_error (columns (frame_of_labels ["Site"; "ID."])) 1 = Some "ID."
   /\ sanitize_column_name "ID." = "id")
  /\ nth_error (create_table_identifiers (frame_of_labels ["Site"; "ID."])) 1
     = Some "original_id"
  /\ nth_error (insert_data_identifiers (frame_of_labels ["Site"; "ID."])) 1
     = Some "original_id".
Proof.
  assert (H : NoDup (columns (frame_of_labels ["Site"; "ID."]))).
  { simpl. repeat constructor; simpl; intuition discriminate. }
  split; [repeat split; exact H|].
  exact (proj2 (proj2 (proj2 rename_on_sanitized_identifier))
           (frame_of_labels ["Site"; "ID."]) "ID." 1 H eq_refl eq_refl).
Defined.

(** ** Distinctness of the identifiers *)

Lemma NoDup_map_inj_in (A B : Type) (f : A -> B) (l : list A) :
  NoDup (map f l) ->
  forall a b, In a l -> In b l -> f a = f b -> a = b.
Proof.
  induction l as [|x l IH]; simpl; intros Hnd a b Ha Hb Hf; [contradiction|].
  inversion Hnd as [|? ? Hx Hnd']; subst.
  destruct Ha as [<- | Ha], Hb as [<- | Hb].
  - reflexivity.
  - exfalso. apply Hx. rewrite Hf. apply in_map. exact Hb.
  - exfalso. apply Hx. rewrite <- Hf. apply in_map. exact Ha.
  - apply IH; assumption.
Qed.

Lemma NoDup_rename (l : list string) :
  let r := fun s => if String.eqb s "id" then "original_id" else s in
  NoDup (map r l)
  <-> NoDup l /\ ~ (In "id" l /\ In "original_id" l).
Proof.
  intros r. split.
  - intros H. split; [apply NoDup_map_inv in H; exact H|].
    intros [Hid Horig].
    assert (E : "id" = "original_id")
      by (apply (NoDup_map_inj_in _ _ H); [exact Hid | exact Horig |
          reflexivity]).
    discriminate E.
  - intros [Hnd Hboth]. apply NoDup_map_NoDup_ForallPairs; [|exact Hnd].
    intros a b Ha Hb. unfold r.
    destruct (String.eqb_spec a "id") as [->|Hna],
             (String.eqb_spec b "id") as [->|Hnb]; intros E.
    + reflexivity.
    + exfalso. apply Hboth. split; [exact Ha | rewrite E; exact Hb].
    + exfalso. apply Hboth. split; [exact Hb | rewrite <- E; exact Ha].
    + exact E.
Qed.

(** C4 (counterexample).  The labels [A B] and [A-B] both sanitize to [a_b],
    and [create_table] emits the identifier twice. *)
Lemma identifiers_distinct_counterexample :
  create_table_identifiers (frame_of_labels ["A B"; "A-B"]) = ["a_b"; "a_b"]
  /\ ~ NoDup (map Str.lower_string
                (create_table_identifiers (frame_of_labels ["A B"; "A-B"]))).
Proof.
  split; [reflexivity|].
  assert (E : map Str.lower_string
                (create_table_identifiers (frame_of_labels ["A B"; "A-B"]))
              = ["a_b"; "a_b"]) by (vm_compute; reflexivity).
  rewrite E. intros H. inversion H as [|? ? Hin _]; subst.
  apply Hin. left. reflexivity.
Qed.

(** C4 (amended).  For every dataset the identifiers emitted by
    [create_table] are pairwise distinct, case-insensitively, exactly when the
    sanitized labels are pairwise distinct and do not hold both [id] and
    [original_id]: labels that sanitize alike are not told apart. *)
Theorem identifiers_distinct_iff (df : DataFrame) :
  NoDup (columns df) ->
  (NoDup (map Str.lower_string (create_table_identifiers df))
   <-> NoDup (map sanitize_column_name (columns df))
       /\ ~ (In "id" (map sanitize_column_name (columns df))
             /\ In "original_id" (map sanitize_column_name (columns df)))).
Proof.
  intros Hnd. rewrite (create_table_identifiers_eq df Hnd).
  rewrite <- NoDup_rename.
  assert (E : map Str.lower_string
                (map rename_id (map sanitize_column_name (columns df)))
              = map (fun s => if String.eqb s "id" then "original_id" else s)
                    (map sanitize_column_name (columns df))).
  { rewrite !map_map. apply map_ext. intros label.
    rewrite lower_rename_id_sanitize. apply rename_id_sanitize. }
  rewrite E. reflexivity.
Qed.

Lemma identifiers_distinct_iff_witness :
  NoDup (columns (frame_of_labels ["Patient ID"; "id"]))
  /\ NoDup (map Str.lower_string
              (create_table_identifiers
                 (frame_of_labels ["Patient ID"; "id"]))).
Proof.
  assert (H : NoDup (columns (frame_of_labels ["Patient ID"; "id"]))).
  { simpl. repeat constructor; simpl; intuition discriminate. }
  split; [exact H|].
  apply (proj2 (identifiers_distinct_iff
                  (frame_of_labels ["Patient ID"; "id"]) H)).
  assert (E : map sanitize_column_name
                (columns (frame_of_labels ["Patient ID"; "id"]))
              = ["patient_id"; "id"]) by (vm_compute; reflexivity).
  rewrite E. split.
  - repeat constructor; simpl; intuition discriminate.
  - intros [_ [F | [F | []]]]; discriminate F.
Defined.

(** ** Batches *)

Section Batches.

Variable A : Type.
Variable rows : list A.
Variable size : nat.
Hypothesis size_pos : 0 < size.

Let chunk (i : nat) : list A := iloc i (i + size) rows.

Lemma chunk_eq (i : nat) : chunk i = firstn size (skipn i rows).
Proof. unfold chunk, iloc. f_equal. lia. Qed.

Lemma range_chunks_concat (fuel : nat) :
  forall start : nat,
    List.length rows <= fuel + start ->
    List.concat (map chunk (range_fuel fuel start (List.length rows) size))
    = skipn start rows.
Proof.
  induction fuel as [|fuel IH]; intros start Hfuel; simpl.
  - rewrite skipn_all2 by lia. reflexivity.
  - destruct (Nat.ltb_spec start (List.length rows)) as [Hlt | Hge].
    + simpl. rewrite IH by lia. rewrite chunk_eq.
      rewrite (Nat.add_comm start size), <- skipn_skipn.
      apply firstn_skipn.
    + rewrite skipn_all2 by lia. reflexivity.
Qed.

Lemma range_chunks_sizes (fuel : nat) :
  forall start : nat,
    List.length rows <= fuel + start ->
    map (@List.length A)
        (map chunk (range_fuel fuel start (List.length rows) size))
    = repeat size ((List.length rows - start) / size)
      ++ (if Nat.eqb ((List.length rows - start) mod size) 0 then []
          else [(List.length rows - start) mod size]).
Proof.
  induction fuel as [|fuel IH]; intros start Hfuel; simpl.
  - replace (List.length rows - start) with 0 by lia.
    rewrite Nat.Div0.div_0_l, Nat.Div0.mod_0_l. reflexivity.
  - destruct (Nat.ltb_spec start (List.length rows)) as [Hlt | Hge].
    + simpl. rewrite IH by lia. rewrite chunk_eq, length_firstn, length_skipn.
      destruct (Nat.le_gt_cases size (List.length rows - start))
        as [Hfull | Hshort].
      * assert (E : List.length rows - start
                    = (List.length rows - (start + size)) + 1 * size)
          by lia.
        assert (Hd : (List.length rows - start) / size
                     = S ((List.length rows - (start + size)) / size))
          by (rewrite E at 1; rewrite Nat.div_add by lia; lia).
        assert (Hm : (List.length rows - start) mod size
                     = (List.length rows - (start + size)) mod size)
          by (rewrite E at 1; apply Nat.Div0.mod_add).
        rewrite Hd, Hm, Nat.min_l by lia. reflexivity.
      * replace (List.length rows - (start + size)) with 0 by lia.
        rewrite Nat.Div0.div_0_l, Nat.Div0.mod_0_l.
        rewrite (Nat.div_small (List.length rows - start)) by lia.
        rewrite (Nat.mod_small (List.length rows - start)) by lia.
        rewrite Nat.min_r by lia.
        destruct (Nat.eqb_spec (List.length rows - start) 0); [lia|].
        reflexivity.
    + replace (List.length rows - start) with 0 by lia.
      rewrite Nat.Div0.div_0_l, Nat.Div0.mod_0_l. reflexivity.
Qed.

Lemma batches_concat : List.concat (batches size rows) = rows.
Proof.
  unfold batches, range.
  apply (range_chunks_concat (List.length rows) 0). lia.
Qed.

Lemma batches_sizes :
  map (@List.length A) (batches size rows)
  = repeat size (List.length rows / size)
    ++ (if Nat.eqb (List.length rows mod size) 0 then []
        else [List.length rows mod size]).
Proof.
  pose proof (range_chunks_sizes (List.length rows) 0) as H.
  rewrite Nat.sub_0_r in H. apply H. lia.
Qed.

Lemma batches_count :
  List.length (batches size rows)
  = (List.length rows + (size - 1)) / size.
Proof.
  rewrite <- (length_map (@List.length A)), batches_sizes.
  rewrite length_app, repeat_length.
  pose proof (Nat.div_mod_eq (List.length rows) size) as Hdm.
  pose proof (Nat.mod_upper_bound (List.length rows) size) as Hub.
  set (q := List.length rows / size) in *.
  set (r := List.length rows mod size) in *.
  destruct (Nat.eqb_spec r 0) as [Hr | Hr]; simpl.
  - apply Nat.div_unique with (r := size - 1); nia.
  - apply Nat.div_unique with (r := r - 1); nia.
Qed.

End Batches.

(** ** The driver monad *)

Section DriverProperties.

Variable raises : list db_call -> db_call -> option Exception.
Variable read_csv : string -> outcome DataFrame.

Lemma issue_accepted (c : db_call) (h : list db_call) :
  raises h c = None -> issue raises c h = (Returned tt, h ++ [c]).
Proof. unfold issue. intros ->. reflexivity. Qed.


(** A loop of calls that the driver accepts issues them all, in order. *)
Lemma for_each_accepted (A : Type) (g : A -> db_call) (xs : list A) :
  forall h : list db_call,
    (forall h' x, In x xs -> raises h' (g x) = None) ->
    for_each xs (fun x => issue raises (g x)) h
    = (Returned tt, h ++ map g xs).
Proof.
  induction xs as [|x xs IH]; intros h Hok; simpl.
  - unfold ret. rewrite app_nil_r. reflexivity.
  - unfold bind. rewrite issue_accepted by (apply Hok; left; reflexivity).
    rewrite IH by (intros h' y Hy; apply Hok; right; exact Hy).
    rewrite <- app_assoc. reflexivity.
Qed.







(** [load_csv_to_postgres] in terms of the steps before the commit. *)
Lemma load_csv_to_postgres_cases (csv_path : string) (h : list db_call) :
  let filename := basename csv_path in
  let table_name := get_table_name_from_filename filename in
  let on_error (e : Exception) (h1 : list db_call) :=
    match raises h1 Rollback with
    | None => (Returned (Failed filename table_name (str_of e)),
               h1 ++ [Rollback])
    | Some e' => (Raised e', h1 ++ [Rollback])
    end in
  load_csv_to_postgres raises read_csv csv_path h
  = match load_steps raises read_csv csv_path h with
    | (Raised e, h1) => on_error e h1
    | (Returned (df, rows_inserted), h1) =>
        match raises h1 Commit with
        | None => (Returned (Success filename table_name rows_inserted
                                     (List.length (columns df))),
                   h1 ++ [Commit])
        | Some e => on_error e (h1 ++ [Commit])
        end
    end.
Proof.
  cbv zeta.
  unfold load_csv_to_postgres, load_steps, try_except, bind, commit,
    rollback, issue, ret.
  destruct (read_csv csv_path) as [df|e];
    [|destruct (raises h Rollback); reflexivity].
  destruct (create_table raises _ df h) as [[[]|e] h1];
    [|destruct (raises h1 Rollback); reflexivity].
  destruct (insert_data raises _ df h1) as [[rows|e] h2];
    [|destruct (raises h2 Rollback); reflexivity].
  destruct (raises h2 Commit);
    [destruct (raises (h2 ++ [Commit]) Rollback)|]; reflexivity.
Qed.

End DriverProperties.

(** ** insert_data *)

(** C2.  For a dataset that is not empty, with [n] rows, and a driver that
    accepts the inserts, [insert_data] issues one [executemany] per batch, in
    order, and returns [n]; there are [ceil(n/1000)] batches, [n / 1000] of
    size 1000 followed by one of size [n mod 1000] when that is not zero;
    together they are the rows of the dataset; for 2500 rows the sizes are
    1000, 1000, 500. *)
Theorem insert_data_batches
        (raises : list db_call -> db_call -> option Exception)
        (table_name : string) (df : DataFrame) (h : list db_call) :
  empty df = false ->
  (forall h' data,
      raises h' (ExecuteMany (insert_query table_name df) data) = None) ->
  let n := len df in
  let bs := batches batch_size (df_copy_rows df) in
  insert_data raises table_name df h
  = (Returned n, h ++ map (ExecuteMany (insert_query table_name df)) bs)
  /\ count is_executemany (map (ExecuteMany (insert_query table_name df)) bs)
     = (n + 999) / 1000
  /\ map (@List.length (list db_value)) bs
     = repeat 1000 (n / 1000)
       ++ (if Nat.eqb (n mod 1000) 0 then [] else [n mod 1000])
  /\ List.concat bs = df_copy_rows df
  /\ (n = 2500 ->
      map (@List.length (list db_value)) bs = [1000; 1000; 500]
      /\ insert_data raises table_name df h
         = (Returned 2500,
            h ++ map (ExecuteMany (insert_query table_name df)) bs)).
Proof.
  intros Hne Hok n bs.
  assert (Hlen : List.length (df_copy_rows df) = n)
    by (unfold df_copy_rows; apply length_map).
  assert (Hpos : 0 < batch_size) by (unfold batch_size; lia).
  assert (Hrun : insert_data raises table_name df h
                 = (Returned n,
                    h ++ map (ExecuteMany (insert_query table_name df)) bs)).
  { unfold insert_data. rewrite Hne. unfold bind, executemany.
    rewrite (for_each_accepted raises
               (fun i => ExecuteMany (insert_query table_name df)
                           (iloc i (i + batch_size) (df_copy_rows df))))
      by (intros; apply Hok).
    unfold ret. rewrite Hlen. unfold bs, batches. rewrite map_map, Hlen.
    reflexivity. }
  assert (Hsizes : map (@List.length (list db_value)) bs
                   = repeat 1000 (n / 1000)
                     ++ (if Nat.eqb (n mod 1000) 0 then []
                         else [n mod 1000])).
  { unfold bs. rewrite (batches_sizes (df_copy_rows df) Hpos), Hlen.
    reflexivity. }
  split; [exact Hrun|]. split; [|split; [exact Hsizes|split]].
  - unfold count.
    assert (Hf : forall l : list (list (list db_value)),
               filter is_executemany
                      (map (ExecuteMany (insert_query table_name df)) l)
               = map (ExecuteMany (insert_query table_name df)) l)
      by (induction l as [|x l IH]; simpl; [|rewrite IH]; reflexivity).
    rewrite Hf, length_map. unfold bs.
    rewrite (batches_count (df_copy_rows df) Hpos), Hlen. reflexivity.
  - apply batches_concat. exact Hpos.
  - intros E. split; [|rewrite <- E; exact Hrun].
    rewrite Hsizes, E. reflexivity.
Qed.

Lemma insert_data_batches_witness :
  empty frame_2500 = false
  /\ map (@List.length (list db_value))
         (batches batch_size (df_copy_rows frame_2500))
     = [1000; 1000; 500]
  /\ insert_data driver_ok "doses" frame_2500 []
     = (Returned 2500,
        [] ++ map (ExecuteMany (insert_query "doses" frame_2500))
                  (batches batch_size (df_copy_rows frame_2500))).
Proof.
  split; [reflexivity|].
  refine (proj2 (proj2 (proj2 (proj2
            (@insert_data_batches driver_ok "doses" frame_2500 [] _ _)))) _).
  - reflexivity.
  - intros h' data. reflexivity.
  - vm_compute. reflexivity.
Defined.

(** C8.  For a dataset with no rows [insert_data] returns 0 and issues no
    call, whatever the driver; and when the driver accepts the statements of
    [create_table] and the commit, loading a file that parses to such a
    dataset creates the table, inserts nothing and succeeds with 0 rows. *)
Theorem insert_data_no_rows
        (raises : list db_call -> db_call -> option Exception) :
  (forall (table_name : string) (df : DataFrame) (h : list db_call),
      len df = 0 ->
      insert_data raises table_name df h = (Returned 0, h))
  /\ (forall (read_csv : string -> outcome DataFrame) (csv_path : string)
             (df : DataFrame) (h : list db_call),
         let filename := basename csv_path in
         let table_name := get_table_name_from_filename filename in
         read_csv csv_path = Returned df ->
         len df = 0 ->
         raises h (Execute (drop_query table_name)) = None ->
         raises (h ++ [Execute (drop_query table_name)])
                (Execute (create_query table_name df)) = None ->
         raises (h ++ [Execute (drop_query table_name);
                       Execute (create_query table_name df)]) Commit = None ->
         load_csv_to_postgres raises read_csv csv_path h
         = (Returned (Success filename table_name 0
                              (List.length (columns df))),
            h ++ [Execute (drop_query table_name);
                  Execute (create_query table_name df); Commit])).
Proof.
  assert (Hins : forall (table_name : string) (df : DataFrame)
                        (h : list db_call),
             len df = 0 ->
             insert_data raises table_name df h = (Returned 0, h)).
  { intros table_name df h H0. unfold insert_data, empty. rewrite H0.
    reflexivity. }
  split; [exact Hins|].
  intros read_csv csv_path df h filename table_name Hread H0 Hdrop Hcreate
         Hcommit.
  unfold load_csv_to_postgres, try_except, bind. rewrite Hread.
  fold filename. fold table_name.
  unfold create_table, execute, bind.
  rewrite (issue_accepted raises _ _ Hdrop).
  rewrite (issue_accepted raises _ _ Hcreate).
  rewrite Hins by exact H0.
  unfold commit. rewrite <- app_assoc. simpl app.
  rewrite (issue_accepted raises _ _ Hcommit).
  unfold ret. rewrite <- app_assoc. reflexivity.
Qed.

Lemma insert_data_no_rows_witness :
  len frame_xy_no_rows = 0
  /\ insert_data driver_ok "visits" frame_xy_no_rows [] = (Returned 0, [])
  /\ load_csv_to_postgres driver_ok (parses_to frame_xy_no_rows)
                          "synthetic_clinical_data/visits.csv" []
     = (Returned (Success "visits.csv" "visits" 0 2),
        [Execute (drop_query "visits");
         Execute (create_query "visits" frame_xy_no_rows); Commit]).
Proof.
  split; [reflexivity|]. split.
  - exact (proj1 (insert_data_no_rows driver_ok) "visits" frame_xy_no_rows []
                 eq_refl).
  - exact (proj2 (insert_data_no_rows driver_ok)
                 (parses_to frame_xy_no_rows)
                 "synthetic_clinical_data/visits.csv" frame_xy_no_rows []
                 eq_refl eq_refl eq_refl eq_refl eq_refl).
Defined.

(** ** load_csv_to_postgres and the loop of main *)

Section Loop.

Variable raises : list db_call -> db_call -> option Exception.
Variable read_csv : string -> outcome DataFrame.



Hypothesis rollback_returns : forall h, raises h Rollback = None.



End Loop.


Section LoopResults.

Variable raises : list db_call -> db_call -> option Exception.
Variable read_csv : string -> outcome DataFrame.




End LoopResults.



(** The run of section 8: [a.csv] with columns [X], [Y] and two rows, then
    [b.csv], which does not parse. *)
Example run_a_b :
  process_files driver_ok files_a_b ["data/a.csv"; "data/b.csv"] [] []
  = (Returned [Success "a.csv" "a" 2 2;
               Failed "b.csv" "b" "No columns to parse from file"],
     [Execute (drop_query "a"); Execute (create_query "a" frame_xy);
      ExecuteMany (insert_query "a" frame_xy)
                  [[PyValue "1"; PyNone]; [PyValue "2"; PyValue "b"]];
      Commit; Rollback]).
Proof. reflexivity. Qed.

(** ** Calls issued in sequence *)

Section Script.

Variable raises : list db_call -> db_call -> option Exception.

(** A sequence of calls is issued up to the first one that raises. *)
Lemma issue_all_cases (calls : list db_call) :
  forall h : list db_call,
    for_each calls (issue raises) h = (Returned tt, h ++ calls)
    \/ exists pre c post e,
        calls = pre ++ c :: post
        /\ raises (h ++ pre) c = Some e
        /\ for_each calls (issue raises) h = (Raised e, h ++ pre ++ [c]).
Proof.
  induction calls as [|c calls IH]; intros h; simpl.
  - left. unfold ret. rewrite app_nil_r. reflexivity.
  - unfold bind.
    assert (Hi : issue raises c h
                 = match raises h c with
                   | None => (Returned tt, h ++ [c])
                   | Some e => (Raised e, h ++ [c])
                   end) by reflexivity.
    rewrite Hi. clear Hi. destruct (raises h c) as [e|] eqn:E.
    + right. exists [], c, calls, e. rewrite app_nil_r.
      repeat split. exact E.
    + destruct (IH (h ++ [c])) as [Hall | (pre & d & post & e & -> & He & Hrun)].
      * left. rewrite Hall, <- app_assoc. reflexivity.
      * right. exists (c :: pre), d, post, e. rewrite Hrun.
        rewrite <- !app_assoc in *. simpl in *. repeat split. exact He.
Qed.

Lemma for_each_map (A : Type) (g : A -> db_call) (xs : list A) :
  forall h : list db_call,
    for_each xs (fun x => issue raises (g x)) h
    = for_each (map g xs) (issue raises) h.
Proof.
  induction xs as [|x xs IH]; intros h; simpl; [reflexivity|].
  unfold bind. destruct (issue raises (g x) h) as [[[]|e] h1];
    [apply IH | reflexivity].
Qed.

Lemma for_each_app (a b : list db_call) :
  forall h : list db_call,
    for_each (a ++ b) (issue raises) h
    = bind (for_each a (issue raises))
           (fun _ => for_each b (issue raises)) h.
Proof.
  induction a as [|c a IH]; intros h; simpl.
  - reflexivity.
  - unfold bind in *. destruct (issue raises c h) as [[[]|e] h1];
      [apply IH | reflexivity].
Qed.

(** [create_table] followed by [insert_data] issues the statements of the
    dataset and returns the number of rows. *)
Lemma create_then_insert (table_name : string) (df : DataFrame)
      (h : list db_call) :
  bind (create_table raises table_name df)
       (fun _ => insert_data raises table_name df) h
  = bind (for_each (statement_calls table_name df) (issue raises))
         (fun _ => ret (rows_of df)) h.
Proof.
  unfold statement_calls, bind. rewrite for_each_app. unfold bind.
  unfold create_table, execute, bind. simpl for_each. unfold bind.
  destruct (issue raises (Execute (drop_query table_name)) h)
    as [[[]|e] h1]; [|reflexivity].
  destruct (issue raises (Execute (create_query table_name df)) h1)
    as [[[]|e] h2]; [|reflexivity].
  unfold ret at 1. unfold insert_data, insert_batches, rows_of.
  destruct (empty df); [reflexivity|].
  unfold bind, executemany, batches.
  rewrite (for_each_map
             (fun i => ExecuteMany (insert_query table_name df)
                         (iloc i (i + batch_size) (df_copy_rows df)))).
  rewrite <- map_map.
  destruct (for_each _ (issue raises) h2) as [[[]|e] h3]; [|reflexivity].
  unfold ret, df_copy_rows, len. rewrite length_map. reflexivity.
Qed.

Lemma insert_as_script (table_name : string) (df : DataFrame)
      (h : list db_call) :
  insert_data raises table_name df h
  = bind (for_each (map (ExecuteMany (insert_query table_name df))
                        (insert_batches df)) (issue raises))
         (fun _ => ret (rows_of df)) h.
Proof.
  unfold insert_data, insert_batches, rows_of.
  destruct (empty df); [reflexivity|].
  unfold bind, executemany, batches.
  rewrite (for_each_map
             (fun i => ExecuteMany (insert_query table_name df)
                         (iloc i (i + batch_size) (df_copy_rows df)))).
  rewrite <- map_map.
  destruct (for_each _ (issue raises) h) as [[[]|e] h3]; [|reflexivity].
  unfold ret, df_copy_rows, len. rewrite length_map. reflexivity.
Qed.

End Script.

(** ** What insert_data and load_csv_to_postgres issue, for every driver *)

Section AcceptedCalls.

Variable raises : list db_call -> db_call -> option Exception.

Lemma accepted_app (a b : list db_call) :
  forall h : list db_call,
    accepted raises h (a ++ b)
    <-> accepted raises h a /\ accepted raises (h ++ a) b.
Proof.
  induction a as [|c a IH]; intros h; simpl.
  - rewrite app_nil_r. tauto.
  - rewrite IH, <- app_assoc. simpl. tauto.
Qed.

(** Calls the driver accepts are all issued. *)
Lemma issue_all_accepted_calls (calls : list db_call) :
  forall h : list db_call,
    accepted raises h calls ->
    for_each calls (issue raises) h = (Returned tt, h ++ calls).
Proof.
  induction calls as [|c calls IH]; intros h Hacc; simpl.
  - unfold ret. rewrite app_nil_r. reflexivity.
  - destruct Hacc as [Hc Hrest]. unfold bind.
    rewrite (issue_accepted raises c h Hc), (IH _ Hrest), <- app_assoc.
    reflexivity.
Qed.

(** The first call that raises ends the sequence. *)
Lemma issue_all_first_error (pre post : list db_call) (c : db_call)
      (e : Exception) :
  forall h : list db_call,
    accepted raises h pre ->
    raises (h ++ pre) c = Some e ->
    for_each (pre ++ c :: post) (issue raises) h
    = (Raised e, h ++ pre ++ [c]).
Proof.
  induction pre as [|x pre IH]; intros h Hacc He; simpl.
  - rewrite app_nil_r in He. unfold bind, issue. rewrite He. reflexivity.
  - destruct Hacc as [Hx Hrest]. unfold bind.
    rewrite (issue_accepted raises x h Hx).
    rewrite IH; [rewrite <- app_assoc; reflexivity | exact Hrest |].
    rewrite <- app_assoc. exact He.
Qed.

(** Either every call is accepted or there is a first one that raises. *)
Lemma accepted_or_first_error (calls : list db_call) :
  forall h : list db_call,
    accepted raises h calls
    \/ exists pre c post e,
        calls = pre ++ c :: post
        /\ accepted raises h pre
        /\ raises (h ++ pre) c = Some e.
Proof.
  induction calls as [|c calls IH]; intros h; simpl.
  - left. exact I.
  - destruct (raises h c) as [e|] eqn:E.
    + right. exists [], c, calls, e. rewrite app_nil_r.
      repeat split. exact E.
    + destruct (IH (h ++ [c]))
        as [Hall | (pre & d & post & e & -> & Hpre & He)].
      * left. split; [reflexivity | exact Hall].
      * right. exists (c :: pre), d, post, e. simpl.
        rewrite <- app_assoc in He.
        repeat split; try assumption.
Qed.

Lemma accepted_map_split (A : Type) (g : A -> db_call) (xs : list A)
      (h : list db_call) :
  accepted raises h (map g xs)
  \/ exists pre x post e,
      xs = pre ++ x :: post
      /\ accepted raises h (map g pre)
      /\ raises (h ++ map g pre) (g x) = Some e.
Proof.
  destruct (accepted_or_first_error (map g xs) h)
    as [Hall | (pre & c & post & e & Hsplit & Hpre & He)];
    [left; exact Hall|].
  right. apply map_eq_app in Hsplit.
  destruct Hsplit as (pre' & rest & -> & <- & Hrest).
  apply map_eq_cons in Hrest. destruct Hrest as (x & post' & -> & <- & <-).
  exists pre', x, post', e. repeat split; assumption.
Qed.

End AcceptedCalls.

(** X1.  [insert_data] issues the batches in order up to the first
    [executemany] that raises: if the driver accepts every batch, all are
    issued and the number of rows is returned; if a batch raises after the
    batches before it were accepted, that exception ends [insert_data] and no
    later batch is issued; and one of the two is always the case. *)
Theorem insert_data_stops_at_first_error
        (raises : list db_call -> db_call -> option Exception)
        (table_name : string) (df : DataFrame) (h : list db_call) :
  let q := insert_query table_name df in
  let bs := insert_batches df in
  (accepted raises h (map (ExecuteMany q) bs) ->
   insert_data raises table_name df h
   = (Returned (rows_of df), h ++ map (ExecuteMany q) bs))
  /\ (forall (pre post : list (list (list db_value)))
             (b : list (list db_value)) (e : Exception),
         bs = pre ++ b :: post ->
         accepted raises h (map (ExecuteMany q) pre) ->
         raises (h ++ map (ExecuteMany q) pre) (ExecuteMany q b) = Some e ->
         insert_data raises table_name df h
         = (Raised e, h ++ map (ExecuteMany q) (pre ++ [b])))
  /\ (accepted raises h (map (ExecuteMany q) bs)
      \/ exists pre b post e,
          bs = pre ++ b :: post
          /\ accepted raises h (map (ExecuteMany q) pre)
          /\ raises (h ++ map (ExecuteMany q) pre) (ExecuteMany q b)
             = Some e).
Proof.
  intros q bs. split; [|split].
  - intros Hacc. rewrite insert_as_script. fold q. fold bs. unfold bind.
    rewrite (issue_all_accepted_calls raises _ h Hacc). reflexivity.
  - intros pre post b e Hsplit Hacc He.
    rewrite insert_as_script. fold q. fold bs. unfold bind.
    rewrite Hsplit, map_app. simpl map.
    rewrite (@issue_all_first_error raises (map (ExecuteMany q) pre)
               (map (ExecuteMany q) post) (ExecuteMany q b) e h Hacc He).
    rewrite map_app. reflexivity.
  - apply accepted_map_split.
Qed.

Lemma insert_data_stops_at_first_error_witness :
  (insert_batches frame_2500
   = [repeat [PyValue "1"] 1000]
     ++ repeat [PyValue "1"] 1000 :: [repeat [PyValue "1"] 500]
   /\ accepted driver_second_insert_fails []
               (map (ExecuteMany (insert_query "doses" frame_2500))
                    [repeat [PyValue "1"] 1000])
   /\ driver_second_insert_fails
        ([] ++ map (ExecuteMany (insert_query "doses" frame_2500))
                   [repeat [PyValue "1"] 1000])
        (ExecuteMany (insert_query "doses" frame_2500)
                     (repeat [PyValue "1"] 1000))
      = Some (Error "value too long for type"))
  /\ insert_data driver_second_insert_fails "doses" frame_2500 []
     = (Raised (Error "value too long for type"),
        [] ++ map (ExecuteMany (insert_query "doses" frame_2500))
                  ([repeat [PyValue "1"] 1000]
                   ++ [repeat [PyValue "1"] 1000])).
Proof.
  assert (H1 : insert_batches frame_2500
               = [repeat [PyValue "1"] 1000]
                 ++ repeat [PyValue "1"] 1000 :: [repeat [PyValue "1"] 500])
    by (vm_compute; reflexivity).
  assert (H2 : accepted driver_second_insert_fails []
                 (map (ExecuteMany (insert_query "doses" frame_2500))
                      [repeat [PyValue "1"] 1000]))
    by (split; [reflexivity | exact I]).
  assert (H3 : driver_second_insert_fails
                 ([] ++ map (ExecuteMany (insert_query "doses" frame_2500))
                            [repeat [PyValue "1"] 1000])
                 (ExecuteMany (insert_query "doses" frame_2500)
                              (repeat [PyValue "1"] 1000))
               = Some (Error "value too long for type")) by reflexivity.
  split; [repeat split; assumption|].
  exact (proj1 (proj2 (@insert_data_stops_at_first_error
                         driver_second_insert_fails "doses" frame_2500 []))
               _ _ _ _ H1 H2 H3).
Defined.

Lemma load_steps_as_script
      (raises : list db_call -> db_call -> option Exception)
      (read_csv : string -> outcome DataFrame)
      (csv_path : string) (df : DataFrame) (h : list db_call) :
  read_csv csv_path = Returned df ->
  load_steps raises read_csv csv_path h
  = match for_each (statement_calls
                      (get_table_name_from_filename (basename csv_path)) df)
                   (issue raises) h with
    | (Returned _, h1) => (Returned (df, rows_of df), h1)
    | (Raised e, h1) => (Raised e, h1)
    end.
Proof.
  intros Hread. unfold load_steps.
  set (table_name := get_table_name_from_filename (basename csv_path)).
  unfold bind at 1. rewrite Hread.
  pose proof (create_then_insert raises table_name df h) as Hci.
  unfold bind in Hci. unfold bind.
  destruct (create_table raises table_name df h) as [[[]|e1] h1];
    cbv beta iota in Hci |- *.
  - rewrite Hci.
    destruct (for_each (statement_calls table_name df) (issue raises) h)
      as [[[]|e2] h2]; reflexivity.
  - destruct (for_each (statement_calls table_name df) (issue raises) h)
      as [[[]|e2] h2];
      [discriminate Hci | injection Hci as <- <-; reflexivity].
Qed.

(** [load_csv_to_postgres] on a file that parses, in terms of its sequence
    of calls. *)
Lemma load_as_script
      (raises : list db_call -> db_call -> option Exception)
      (read_csv : string -> outcome DataFrame)
      (csv_path : string) (df : DataFrame) (h : list db_call) :
  read_csv csv_path = Returned df ->
  let filename := basename csv_path in
  let table_name := get_table_name_from_filename filename in
  load_csv_to_postgres raises read_csv csv_path h
  = match for_each (statement_calls table_name df ++ [Commit])
                   (issue raises) h with
    | (Returned _, h1) =>
        (Returned (Success filename table_name (rows_of df)
                           (List.length (columns df))), h1)
    | (Raised e, h1) =>
        match raises h1 Rollback with
        | None => (Returned (Failed filename table_name (str_of e)),
                   h1 ++ [Rollback])
        | Some e' => (Raised e', h1 ++ [Rollback])
        end
    end.
Proof.
  intros Hread filename table_name.
  rewrite load_csv_to_postgres_cases. cbv zeta.
  rewrite (load_steps_as_script raises read_csv csv_path h Hread).
  fold filename. fold table_name.
  rewrite for_each_app. unfold bind.
  destruct (for_each (statement_calls table_name df) (issue raises) h)
    as [[[]|e] h1]; [|reflexivity].
  simpl for_each. unfold bind, issue, ret.
  destruct (raises h1 Commit); reflexivity.
Qed.

(** X2.  For a file that parses, [load_csv_to_postgres] issues the calls
    DROP, CREATE, the batches and the commit, in this order, up to the first
    one that raises.  If the driver accepts them all, all are issued and the
    result is [Success] with the row and column counts.  If one of them
    raises after the calls before it were accepted, no later call of the
    sequence is issued, one rollback follows, and the result is [Failed] with
    that error, or the rollback's own exception.  One of the two is always
    the case. *)
Theorem load_issues_script
        (raises : list db_call -> db_call -> option Exception)
        (read_csv : string -> outcome DataFrame)
        (csv_path : string) (df : DataFrame) (h : list db_call) :
  read_csv csv_path = Returned df ->
  let filename := basename csv_path in
  let table_name := get_table_name_from_filename filename in
  let script := statement_calls table_name df ++ [Commit] in
  (accepted raises h script ->
   load_csv_to_postgres raises read_csv csv_path h
   = (Returned (Success filename table_name (rows_of df)
                        (List.length (columns df))),
      h ++ script))
  /\ (forall (pre post : list db_call) (c : db_call) (e : Exception),
         script = pre ++ c :: post ->
         accepted raises h pre ->
         raises (h ++ pre) c = Some e ->
         load_csv_to_postgres raises read_csv csv_path h
         = match raises (h ++ pre ++ [c]) Rollback with
           | None => (Returned (Failed filename table_name (str_of e)),
                      h ++ pre ++ [c; Rollback])
           | Some e' => (Raised e', h ++ pre ++ [c; Rollback])
           end)
  /\ (accepted raises h script
      \/ exists pre c post e,
          script = pre ++ c :: post
          /\ accepted raises h pre
          /\ raises (h ++ pre) c = Some e).
Proof.
  intros Hread filename table_name script.
  pose proof (load_as_script raises read_csv csv_path h Hread) as Hload.
  cbv zeta in Hload. fold filename in Hload. fold table_name in Hload.
  fold script in Hload.
  split; [|split].
  - intros Hacc. rewrite Hload.
    rewrite (issue_all_accepted_calls raises _ h Hacc). reflexivity.
  - intros pre post c e Hsplit Hacc He. rewrite Hload, Hsplit.
    rewrite (@issue_all_first_error raises pre post c e h Hacc He).
    rewrite <- !app_assoc. reflexivity.
  - apply accepted_or_first_error.
Qed.

Lemma load_issues_script_witness :
  (files_a_b "data/a.csv" = Returned frame_xy
   /\ statement_calls (get_table_name_from_filename (basename "data/a.csv"))
                      frame_xy ++ [Commit]
      = [Execute (drop_query "a"); Execute (create_query "a" frame_xy);
         ExecuteMany (insert_query "a" frame_xy)
                     [[PyValue "1"; PyNone]; [PyValue "2"; PyValue "b"]]]
        ++ Commit :: []
   /\ accepted driver_commit_fails []
               [Execute (drop_query "a"); Execute (create_query "a" frame_xy);
                ExecuteMany (insert_query "a" frame_xy)
                            [[PyValue "1"; PyNone];
                             [PyValue "2"; PyValue "b"]]]
   /\ driver_commit_fails
        ([] ++ [Execute (drop_query "a");
                Execute (create_query "a" frame_xy);
                ExecuteMany (insert_query "a" frame_xy)
                            [[PyValue "1"; PyNone];
                             [PyValue "2"; PyValue "b"]]]) Commit
      = Some (Error "server closed the connection unexpectedly"))
  /\ load_csv_to_postgres driver_commit_fails files_a_b "data/a.csv" []
     = (Returned (Failed "a.csv" "a"
                         "server closed the connection unexpectedly"),
        [Execute (drop_query "a"); Execute (create_query "a" frame_xy);
         ExecuteMany (insert_query "a" frame_xy)
                     [[PyValue "1"; PyNone]; [PyValue "2"; PyValue "b"]];
         Commit; Rollback]).
Proof.
  assert (H2 : accepted driver_commit_fails []
                 [Execute (drop_query "a");
                  Execute (create_query "a" frame_xy);
                  ExecuteMany (insert_query "a" frame_xy)
                              [[PyValue "1"; PyNone];
                               [PyValue "2"; PyValue "b"]]])
    by (repeat split).
  split; [repeat split; exact H2|].
  exact (proj1 (proj2 (@load_issues_script driver_commit_fails files_a_b
                         "data/a.csv" frame_xy [] eq_refl))
               _ _ _ _ eq_refl H2 eq_refl).
Defined.

(** X3.  A file that does not parse reaches the database with a rollback
    only: no table is dropped or created and nothing is inserted; the result
    is [Failed] with the parser's error when the rollback returns. *)
Theorem load_parse_failure
        (raises : list db_call -> db_call -> option Exception)
        (read_csv : string -> outcome DataFrame)
        (csv_path : string) (e : Exception) (h : list db_call) :
  read_csv csv_path = Raised e ->
  load_csv_to_postgres raises read_csv csv_path h
  = match raises h Rollback with
    | None => (Returned (Failed (basename csv_path)
                                (get_table_name_from_filename
                                   (basename csv_path))
                                (str_of e)),
               h ++ [Rollback])
    | Some e' => (Raised e', h ++ [Rollback])
    end.
Proof.
  intros Hread. rewrite load_csv_to_postgres_cases. cbv zeta.
  unfold load_steps, bind. rewrite Hread. reflexivity.
Qed.

Lemma load_parse_failure_witness :
  files_a_b "data/b.csv" = Raised (Error "No columns to parse from file")
  /\ load_csv_to_postgres driver_ok files_a_b "data/b.csv" []
     = (Returned (Failed "b.csv" "b" "No columns to parse from file"),
        [Rollback]).
Proof.
  split; [reflexivity|].
  exact (@load_parse_failure driver_ok files_a_b "data/b.csv"
                             (Error "No columns to parse from file") []
                             eq_refl).
Defined.

(** X4.  Every call of [load_csv_to_postgres] ends its transaction: the last
    call it issues is the commit, and then the result is [Success], or it is
    the rollback, and then the result is not [Success]. *)
Theorem load_ends_transaction
        (raises : list db_call -> db_call -> option Exception)
        (read_csv : string -> outcome DataFrame)
        (csv_path : string) (h : list db_call) :
  (exists pre r,
      load_csv_to_postgres raises read_csv csv_path h
      = (Returned r, pre ++ [Commit])
      /\ is_success r = true)
  \/ (exists pre o,
         load_csv_to_postgres raises read_csv csv_path h
         = (o, pre ++ [Rollback])
         /\ forall r, o = Returned r -> is_success r = false).
Proof.
  rewrite load_csv_to_postgres_cases. cbv zeta.
  destruct (load_steps raises read_csv csv_path h) as [[[df rows]|e] h1].
  - destruct (raises h1 Commit) as [e|].
    + right. destruct (raises (h1 ++ [Commit]) Rollback) as [e'|];
        eexists _, _; (split; [reflexivity|]); intros r E;
        [discriminate E | injection E as <-; reflexivity].
    + left. eexists _, _. split; reflexivity.
  - right. destruct (raises h1 Rollback) as [e'|];
      eexists _, _; (split; [reflexivity|]); intros r E;
      [discriminate E | injection E as <-; reflexivity].
Qed.

(** ** The run and its summary *)

Section Run.

Variable raises : list db_call -> db_call -> option Exception.
Variable read_csv : string -> outcome DataFrame.

Lemma load_result_filename (csv_path : string) (h h' : list db_call)
      (r : LoadResult) :
  load_csv_to_postgres raises read_csv csv_path h = (Returned r, h') ->
  result_filename r = basename csv_path.
Proof.
  rewrite load_csv_to_postgres_cases. cbv zeta.
  destruct (load_steps raises read_csv csv_path h) as [[[df rows]|e] h1].
  - destruct (raises h1 Commit).
    + destruct (raises (h1 ++ [Commit]) Rollback); intros E;
        [discriminate E | injection E as <- _; reflexivity].
    + intros E. injection E as <- _. reflexivity.
  - destruct (raises h1 Rollback); intros E;
      [discriminate E | injection E as <- _; reflexivity].
Qed.

Lemma process_files_results (csv_files : list string) :
  forall (acc results : list LoadResult) (h h' : list db_call),
    process_files raises read_csv csv_files acc h = (Returned results, h') ->
    exists new,
      results = acc ++ new
      /\ map result_filename new = map basename csv_files.
Proof.
  induction csv_files as [|f rest IH]; intros acc results h h' Hrun;
    simpl in Hrun.
  - injection Hrun as <- _. exists []. rewrite app_nil_r.
    split; reflexivity.
  - unfold bind in Hrun.
    destruct (load_csv_to_postgres raises read_csv f h) as [[r|e] h1] eqn:Hl;
      [|discriminate Hrun].
    apply IH in Hrun. destruct Hrun as (new & -> & Hnames).
    exists (r :: new). rewrite <- app_assoc. split; [reflexivity|].
    simpl. rewrite Hnames, (load_result_filename _ _ Hl). reflexivity.
Qed.

Hypothesis accepts : forall h c, raises h c = None.

Lemma issue_all_accepted (calls : list db_call) (h : list db_call) :
  for_each calls (issue raises) h = (Returned tt, h ++ calls).
Proof.
  destruct (issue_all_cases raises calls h)
    as [Hall | (pre & c & post & e & _ & He & _)]; [exact Hall|].
  rewrite accepts in He. discriminate He.
Qed.

Lemma load_accepted (csv_path : string) (h : list db_call) :
  exists h',
    load_csv_to_postgres raises read_csv csv_path h
    = (Returned (result_if_accepted read_csv csv_path), h').
Proof.
  rewrite load_csv_to_postgres_cases. cbv zeta. unfold result_if_accepted.
  destruct (read_csv csv_path) as [df|e] eqn:Hread.
  - rewrite (load_steps_as_script raises read_csv csv_path h Hread).
    rewrite issue_all_accepted, accepts. eexists. reflexivity.
  - unfold load_steps, bind. rewrite Hread, accepts. eexists. reflexivity.
Qed.

Lemma process_files_accepted (csv_files : list string) :
  forall (acc : list LoadResult) (h : list db_call),
  exists h',
    process_files raises read_csv csv_files acc h
    = (Returned (acc ++ map (result_if_accepted read_csv) csv_files), h').
Proof.
  induction csv_files as [|f rest IH]; intros acc h; simpl.
  - exists h. unfold ret. rewrite app_nil_r. reflexivity.
  - destruct (load_accepted f h) as (h1 & Hl). unfold bind. rewrite Hl.
    destruct (IH (acc ++ [result_if_accepted read_csv f]) h1) as (h' & Hrun).
    exists h'. rewrite Hrun, <- app_assoc. reflexivity.
Qed.

End Run.

Lemma total_rows_accepted (read_csv : string -> outcome DataFrame)
      (csv_files : list string) :
  total_rows (map (result_if_accepted read_csv) csv_files)
  = list_sum (map (fun f => match read_csv f with
                            | Returned df => rows_of df
                            | Raised _ => 0
                            end) csv_files).
Proof.
  unfold total_rows, successful, result_if_accepted.
  induction csv_files as [|f rest IH]; simpl; [reflexivity|].
  destruct (read_csv f) as [df|e]; simpl; rewrite IH; reflexivity.
Qed.

(** X5.  With a driver that accepts every call, a file fails exactly when it
    does not parse: the loop of [main] yields, for every file in order,
    [Success] with the row and column counts of its dataset, or [Failed] with
    the parser's error; and the total of the summary is the sum of the row
    counts of the files that parse. *)
Theorem run_with_accepting_driver
        (raises : list db_call -> db_call -> option Exception)
        (read_csv : string -> outcome DataFrame)
        (csv_files : list string) (h : list db_call) :
  (forall h' c, raises h' c = None) ->
  exists results h',
    process_files raises read_csv csv_files [] h = (Returned results, h')
    /\ results = map (result_if_accepted read_csv) csv_files
    /\ total_rows results
       = list_sum (map (fun f => match read_csv f with
                                 | Returned df => rows_of df
                                 | Raised _ => 0
                                 end) csv_files).
Proof.
  intros Hacc.
  destruct (@process_files_accepted raises read_csv Hacc csv_files [] h)
    as (h' & Hrun).
  exists (map (result_if_accepted read_csv) csv_files), h'.
  split; [exact Hrun|]. split; [reflexivity|]. apply total_rows_accepted.
Qed.

Lemma run_with_accepting_driver_witness :
  (forall h' c, driver_ok h' c = None)
  /\ exists results h',
      process_files driver_ok files_a_b ["data/a.csv"; "data/b.csv"] [] []
      = (Returned results, h')
      /\ results
         = map (result_if_accepted files_a_b) ["data/a.csv"; "data/b.csv"]
      /\ total_rows results
         = list_sum (map (fun f => match files_a_b f with
                                   | Returned df => rows_of df
                                   | Raised _ => 0
                                   end) ["data/a.csv"; "data/b.csv"]).
Proof.
  assert (H : forall h' c, driver_ok h' c = None) by reflexivity.
  split; [exact H|].
  exact (@run_with_accepting_driver driver_ok files_a_b
           ["data/a.csv"; "data/b.csv"] [] H).
Defined.

(** X6.  Whenever the loop of [main] returns, the summary counts every file
    exactly once: the successful and the failed results together are as many
    as the files, and the results carry the files' names in order. *)
Theorem summary_counts_every_file
        (raises : list db_call -> db_call -> option Exception)
        (read_csv : string -> outcome DataFrame)
        (csv_files : list string) (results : list LoadResult)
        (h h' : list db_call) :
  process_files raises read_csv csv_files [] h = (Returned results, h') ->
  List.length (successful results) + List.length (failed results)
  = List.length csv_files
  /\ map result_filename results = map basename csv_files.
Proof.
  intros Hrun. apply process_files_results in Hrun.
  destruct Hrun as (new & -> & Hnames). simpl. split; [|exact Hnames].
  rewrite <- (length_map basename csv_files), <- Hnames, length_map.
  unfold successful, failed. rewrite <- (filter_length is_success new).
  f_equal. f_equal. apply filter_ext. intros r. destruct r; reflexivity.
Qed.

Lemma summary_counts_every_file_witness :
  process_files driver_commit_fails files_a_b ["data/a.csv"; "data/b.csv"]
                [] []
  = (Returned [Failed "a.csv" "a" "server closed the connection unexpectedly";
               Failed "b.csv" "b" "No columns to parse from file"],
     [Execute (drop_query "a"); Execute (create_query "a" frame_xy);
      ExecuteMany (insert_query "a" frame_xy)
                  [[PyValue "1"; PyNone]; [PyValue "2"; PyValue "b"]];
      Commit; Rollback; Rollback])
  /\ List.length
       (successful
          [Failed "a.csv" "a" "server closed the connection unexpectedly";
           Failed "b.csv" "b" "No columns to parse from file"])
     + List.length
         (failed
            [Failed "a.csv" "a" "server closed the connection unexpectedly";
             Failed "b.csv" "b" "No columns to parse from file"])
     = List.length ["data/a.csv"; "data/b.csv"].
Proof.
  assert (H : process_files driver_commit_fails files_a_b
                            ["data/a.csv"; "data/b.csv"] [] []
              = (Returned
                   [Failed "a.csv" "a"
                           "server closed the connection unexpectedly";
                    Failed "b.csv" "b" "No columns to parse from file"],
                 [Execute (drop_query "a");
                  Execute (create_query "a" frame_xy);
                  ExecuteMany (insert_query "a" frame_xy)
                              [[PyValue "1"; PyNone]; [PyValue "2"; PyValue "b"]];
                  Commit; Rollback; Rollback])) by reflexivity.
  split; [exact H|].
  exact (proj1 (summary_counts_every_file _ _ _ _ H)).
Defined.

(** ** More on sanitize_column_name *)

Lemma list_ascii_of_string_app (a b : string) :
  list_ascii_of_string (a ++ b)
  = list_ascii_of_string a ++ list_ascii_of_string b.
Proof. induction a as [|c a IH]; simpl; [|rewrite IH]; reflexivity. Qed.

(** X7.  Every result of [sanitize_column_name] consists of word characters
    that are not white space and that lowering leaves unchanged, holds no two
    underscores in a row, and neither starts nor ends with an underscore. *)
Theorem sanitize_output_form (label : string) :
  (forall c : ascii,
      In c (list_ascii_of_string (sanitize_column_name label)) ->
      Char.is_word c = true /\ Char.is_space c = false
      /\ Char.to_lower c = c)
  /\ ~ occurs "__" (sanitize_column_name label)
  /\ first_char (sanitize_column_name label) <> Some Char.underscore
  /\ last_char (sanitize_column_name label) <> Some Char.underscore.
Proof.
  pose proof (sanitize_chars_canonical (list_ascii_of_string label)) as H.
  apply canonical_elim in H. destruct H as (Hc & Hn & Hh & Hl & _ & _).
  unfold first_char, last_char, sanitize_column_name.
  rewrite list_ascii_of_string_of_list_ascii.
  set (cs := sanitize_chars (list_ascii_of_string label)) in *.
  split; [|split; [|split]].
  - intros c Hin.
    assert (Hcl : clean_char c = true)
      by (revert c Hin; apply forallb_forall; exact Hc).
    unfold clean_char in Hcl. apply andb_true_iff in Hcl.
    destruct Hcl as [Hw Hlow]. apply Ascii.eqb_eq in Hlow.
    split; [exact Hw|]. split; [apply word_not_space; exact Hw | exact Hlow].
  - intros (pre & post & E).
    apply (f_equal list_ascii_of_string) in E.
    rewrite list_ascii_of_string_of_list_ascii in E.
    rewrite !list_ascii_of_string_app in E. rewrite E in Hn.
    apply no_double_app_r in Hn. apply no_double_app_l in Hn.
    discriminate Hn.
  - destruct cs as [|c rest]; [discriminate|]. simpl in Hh.
    intros E. injection E as ->. discriminate Hh.
  - destruct (rev cs) as [|c rest]; [discriminate|]. simpl in Hl.
    intros E. injection E as ->. discriminate Hl.
Qed.

(** X8.  The results of [sanitize_column_name] are exactly the strings it
    leaves unchanged, and [canonical] decides them. *)
Theorem sanitize_image (x : string) :
  ((exists y : string, sanitize_column_name y = x)
   <-> sanitize_column_name x = x)
  /\ (sanitize_column_name x = x
      <-> canonical (list_ascii_of_string x) = true).
Proof.
  assert (Hfix : canonical (list_ascii_of_string x) = true ->
                 sanitize_column_name x = x).
  { intros H. unfold sanitize_column_name.
    rewrite (sanitize_chars_fix _ H). apply string_of_list_ascii_of_string. }
  assert (Hcan : sanitize_column_name x = x ->
                 canonical (list_ascii_of_string x) = true).
  { intros E. rewrite <- E at 1. unfold sanitize_column_name.
    rewrite list_ascii_of_string_of_list_ascii.
    apply sanitize_chars_canonical. }
  split; split.
  - intros [y <-]. apply sanitize_column_name_idem.
  - intros E. exists x. exact E.
  - exact Hcan.
  - exact Hfix.
Qed.

(** X9.  [sanitize_column_name] ignores case: a label and its lower-case form
    have the same result. *)
Theorem sanitize_ignores_case (label : string) :
  sanitize_column_name (Str.lower_string label) = sanitize_column_name label.
Proof.
  unfold sanitize_column_name, Str.lower_string.
  rewrite list_ascii_of_string_of_list_ascii. f_equal.
  unfold sanitize_chars.
  assert (E : Str.lower (Str.lower (list_ascii_of_string label))
              = Str.lower (list_ascii_of_string label)).
  { unfold Str.lower. rewrite map_map. apply map_ext.
    intros c. apply to_lower_idem. }
  rewrite E. reflexivity.
Qed.

(** ** More on the identifiers *)

Lemma rename_id_not_id (s : string) : Str.lower_string (rename_id s) <> "id".
Proof.
  unfold rename_id.
  destruct (String.eqb (Str.lower_string s) "id") eqn:E.
  - vm_compute. discriminate.
  - apply String.eqb_neq. exact E.
Qed.

Lemma dict_set_values (k v0 v : string) (d : Dict.t) :
  In v (Dict.values (Dict.set k v0 d)) -> v = v0 \/ In v (Dict.values d).
Proof.
  induction d as [|[k' v'] d IH]; simpl.
  - intros [<- | []]. left. reflexivity.
  - destruct (String.eqb k' k); simpl.
    + intros [<- | H]; [left; reflexivity | right; right; exact H].
    + intros [<- | H]; [right; left; reflexivity|].
      destruct (IH H) as [-> | H']; [left; reflexivity | right; right; exact H'].
Qed.

Section FoldValues.

Variable X : Type.
Variable step : Dict.t -> X -> Dict.t.
Variable key val : X -> string.
Hypothesis step_sets : forall d x, step d x = Dict.set (key x) (val x) d.

Lemma fold_set_values (xs : list X) :
  forall (d0 : Dict.t) (v : string),
    In v (Dict.values (fold_left step xs d0)) ->
    In v (Dict.values d0) \/ exists x, In x xs /\ v = val x.
Proof.
  induction xs as [|a xs IH]; intros d0 v H; simpl in H.
  - left. exact H.
  - apply IH in H. destruct H as [H | (x & Hx & ->)].
    + rewrite step_sets in H. apply dict_set_values in H.
      destruct H as [-> | H]; [|left; exact H].
      right. exists a. split; [left; reflexivity | reflexivity].
    + right. exists x. split; [right; exact Hx | reflexivity].
Qed.

End FoldValues.

(** X10.  Neither code path ever emits the identifier [id], in any case: the
    surrogate key [id SERIAL PRIMARY KEY] of the created table cannot clash
    with a data column. *)
Theorem identifiers_never_id (df : DataFrame) :
  Forall (fun x => Str.lower_string x <> "id") (create_table_identifiers df)
  /\ Forall (fun x => Str.lower_string x <> "id")
            (insert_data_identifiers df).
Proof.
  split.
  - apply Forall_forall. intros v Hv.
    unfold create_table_identifiers, create_table_sanitized_columns in Hv.
    destruct (str_in "id" _) eqn:E.
    + apply (@fold_set_values (string * string) _ fst
               (fun item => rename_id (snd item))) in Hv.
      * destruct Hv as [[] | (x & _ & ->)]. apply rename_id_not_id.
      * intros d [col sanitized_col]. unfold rename_id. simpl.
        destruct (String.eqb (Str.lower_string sanitized_col) "id");
          reflexivity.
    + apply String.eqb_neq. apply (str_in_false _ _ E).
      apply in_map. exact Hv.
  - rewrite insert_data_identifiers_eq. apply Forall_forall. intros v Hv.
    apply in_map_iff in Hv. destruct Hv as (s & <- & _).
    apply rename_id_not_id.
Qed.

(** X11.  Both code paths give each column the identifier of its own label,
    in file order: the sanitized label, or [original_id] when the sanitized
    label is [id]; no other identifier is changed ([insert_data] always,
    [create_table] for pairwise distinct labels). *)
Theorem identifiers_by_label (df : DataFrame) :
  insert_data_identifiers df = map identifier_of (columns df)
  /\ (NoDup (columns df) ->
      create_table_identifiers df = map identifier_of (columns df)).
Proof.
  assert (E : map rename_id (map sanitize_column_name (columns df))
              = map identifier_of (columns df)).
  { rewrite map_map. apply map_ext. intros label.
    apply rename_id_sanitize. }
  split.
  - rewrite insert_data_identifiers_eq. exact E.
  - intros Hnd. rewrite (create_table_identifiers_eq df Hnd). exact E.
Qed.

Lemma identifiers_by_label_witness :
  NoDup (columns frame_site)
  /\ create_table_identifiers frame_site
     = map identifier_of (columns frame_site).
Proof.
  assert (H : NoDup (columns frame_site)).
  { simpl. repeat constructor; simpl; intuition discriminate. }
  split; [exact H | exact (proj2 (identifiers_by_label frame_site) H)].
Defined.

Lemma find_unique (k v : string) (l : list (string * string)) :
  NoDup (map fst l) -> In (k, v) l ->
  find (fun p => String.eqb (fst p) k) l = Some (k, v).
Proof.
  induction l as [|[k' v'] l IH]; simpl; intros Hnd Hin; [contradiction|].
  inversion Hnd as [|? ? Hk Hnd']; subst.
  destruct Hin as [E | Hin].
  - injection E as -> ->. rewrite String.eqb_refl. reflexivity.
  - destruct (String.eqb_spec k' k) as [->|Hne]; [|apply IH; assumption].
    exfalso. apply Hk. apply (in_map fst) in Hin. exact Hin.
Qed.

(** X12.  For pairwise distinct labels, the column definitions of the CREATE
    TABLE statement are, in file order, the quoted identifier of each label
    followed by the type of that column's own dtype. *)
Theorem columns_def_by_column (df : DataFrame) :
  NoDup (columns df) ->
  columns_def df
  = map (fun column : string * string =>
           (Str.dquote ++ identifier_of (fst column) ++ Str.dquote ++ " "
            ++ get_postgres_type (snd column))%string)
        (df_columns df).
Proof.
  intros Hnd. unfold columns_def.
  rewrite (create_table_sanitized_columns_eq df Hnd).
  unfold Dict.items. unfold columns at 1. rewrite !map_map.
  apply map_ext_in. intros [label dtype] Hin. cbn [fst snd].
  rewrite rename_id_sanitize. fold (identifier_of label).
  unfold dtype_of. rewrite (find_unique label dtype _ Hnd Hin). reflexivity.
Qed.

Lemma columns_def_by_column_witness :
  NoDup (columns frame_site)
  /\ columns_def frame_site
     = map (fun column : string * string =>
              (Str.dquote ++ identifier_of (fst column) ++ Str.dquote ++ " "
               ++ get_postgres_type (snd column))%string)
           (df_columns frame_site).
Proof.
  assert (H : NoDup (columns frame_site)).
  { simpl. repeat constructor; simpl; intuition discriminate. }
  split; [exact H | exact (columns_def_by_column frame_site H)].
Defined.

(** ** File names and table names *)

Lemma string_of_list_ascii_app (a b : list ascii) :
  string_of_list_ascii (a ++ b)
  = (string_of_list_ascii a ++ string_of_list_ascii b)%string.
Proof. induction a as [|c a IH]; simpl; [|rewrite IH]; reflexivity. Qed.

Lemma replace_no_occurrence (old new s : list ascii) :
  Str.contains (string_of_list_ascii old) (string_of_list_ascii s) = false ->
  Str.replace_from old new 0 s = s.
Proof.
  induction s as [|c s IH]; intros H; [reflexivity|].
  change (string_of_list_ascii (c :: s))
    with (String c (string_of_list_ascii s)) in H.
  cbn [Str.contains] in H. apply orb_false_iff in H. destruct H as [Hp Hc].
  cbn [Str.replace_from].
  change (string_of_list_ascii (c :: s))
    with (String c (string_of_list_ascii s)).
  rewrite Hp. f_equal. apply IH. exact Hc.
Qed.

(** An occurrence of [.csv] at the start of [s ++ ".csv"], for a non-empty
    [s], lies within [s]. *)
Lemma prefix_csv_within (s : string) :
  s <> EmptyString ->
  String.prefix ".csv" (s ++ ".csv") = true ->
  String.prefix ".csv" s = true.
Proof.
  intros Hs H. apply prefix_spec in H. destruct H as [post E].
  apply prefix_spec.
  destruct s as [|a [|b [|c [|d s]]]]; simpl in E.
  - congruence.
  - injection E as _ E _. discriminate E.
  - injection E as _ _ E _. discriminate E.
  - injection E as _ _ _ E _. discriminate E.
  - injection E as -> -> -> -> _. exists s. reflexivity.
Qed.

Lemma replace_csv_suffix (stem : list ascii) :
  Str.contains ".csv" (string_of_list_ascii stem) = false ->
  Str.replace_from (list_ascii_of_string ".csv") [] 0
                   (stem ++ list_ascii_of_string ".csv")
  = stem.
Proof.
  induction stem as [|c stem IH]; intros H; [reflexivity|].
  change (string_of_list_ascii (c :: stem))
    with (String c (string_of_list_ascii stem)) in H.
  cbn [Str.contains] in H. apply orb_false_iff in H. destruct H as [Hp Hc].
  change ((c :: stem) ++ list_ascii_of_string ".csv")
    with (c :: (stem ++ list_ascii_of_string ".csv")).
  cbn [Str.replace_from].
  destruct (String.prefix
              (string_of_list_ascii (list_ascii_of_string ".csv"))
              (string_of_list_ascii
                 (c :: stem ++ list_ascii_of_string ".csv"))) eqn:E.
  - exfalso.
    change (c :: stem ++ list_ascii_of_string ".csv")
      with ((c :: stem) ++ list_ascii_of_string ".csv") in E.
    rewrite string_of_list_ascii_app in E.
    apply prefix_csv_within in E; [|discriminate].
    simpl string_of_list_ascii in E. congruence.
  - f_equal. apply IH. exact Hc.
Qed.

(** X13.  A file name without any occurrence of [.csv] is its own table
    name, and a name [stem.csv] whose stem holds no [.csv] gets the table
    name [stem]. *)
Theorem table_name_of_plain_stem (name : string) :
  Str.contains ".csv" name = false ->
  get_table_name_from_filename name = name
  /\ get_table_name_from_filename (name ++ ".csv") = name.
Proof.
  intros H. unfold get_table_name_from_filename, Str.replace.
  rewrite <- (string_of_list_ascii_of_string name) in H.
  split.
  - rewrite (replace_no_occurrence (list_ascii_of_string ".csv") _ _ H).
    apply string_of_list_ascii_of_string.
  - rewrite list_ascii_of_string_app.
    change (list_ascii_of_string EmptyString) with (@nil ascii).
    rewrite (replace_csv_suffix _ H).
    apply string_of_list_ascii_of_string.
Qed.

Lemma table_name_of_plain_stem_witness :
  Str.contains ".csv" "site_visits" = false
  /\ get_table_name_from_filename "site_visits" = "site_visits"
  /\ get_table_name_from_filename ("site_visits" ++ ".csv") = "site_visits".
Proof.
  split; [reflexivity | exact (@table_name_of_plain_stem "site_visits" eq_refl)].
Defined.

Lemma take_while_app_stop (p : ascii -> bool) (a b : list ascii) (c : ascii) :
  forallb p a = true -> p c = false ->
  take_while p (a ++ c :: b) = a.
Proof.
  induction a as [|x a IH]; simpl; intros Ha Hc.
  - rewrite Hc. reflexivity.
  - apply andb_true_iff in Ha. destruct Ha as [-> Ha].
    f_equal. apply IH; assumption.
Qed.

Lemma take_while_all (p : ascii -> bool) (a : list ascii) :
  forallb p a = true -> take_while p a = a.
Proof.
  induction a as [|x a IH]; simpl; intros Ha; [reflexivity|].
  apply andb_true_iff in Ha. destruct Ha as [-> Ha].
  f_equal. apply IH. exact Ha.
Qed.

Lemma take_while_holds (p : ascii -> bool) (s : list ascii) :
  forallb p (take_while p s) = true.
Proof.
  induction s as [|x s IH]; simpl; [reflexivity|].
  destruct (p x) eqn:E; [simpl; rewrite E; exact IH | reflexivity].
Qed.

Lemma forallb_rev (p : ascii -> bool) (s : list ascii) :
  forallb p (rev s) = forallb p s.
Proof.
  induction s as [|x s IH]; simpl; [reflexivity|].
  rewrite forallb_app, IH. simpl. rewrite andb_true_r. apply andb_comm.
Qed.

(** [basename] returns what follows the last slash: a name without a
    slash is returned for [dir/name] and for [name] itself, and no result
    holds a slash. *)
Theorem basename_last_component (dir name : string) :
  (forallb (fun c => negb (Ascii.eqb c "/"%char)) (list_ascii_of_string name)
   = true ->
   basename (dir ++ "/" ++ name) = name /\ basename name = name)
  /\ forallb (fun c => negb (Ascii.eqb c "/"%char))
             (list_ascii_of_string (basename dir)) = true.
Proof.
  unfold basename. split.
  - intros Hn. rewrite !list_ascii_of_string_app. simpl.
    rewrite rev_app_distr. simpl. rewrite <- app_assoc. simpl.
    rewrite take_while_app_stop by (rewrite ?forallb_rev; auto).
    rewrite take_while_all by (rewrite forallb_rev; exact Hn).
    rewrite rev_involutive, string_of_list_ascii_of_string.
    split; reflexivity.
  - rewrite list_ascii_of_string_of_list_ascii, forallb_rev.
    apply take_while_holds.
Qed.

Lemma basename_last_component_witness :
  forallb (fun c => negb (Ascii.eqb c "/"%char))
          (list_ascii_of_string "visits.csv") = true
  /\ basename ("synthetic_clinical_data" ++ "/" ++ "visits.csv")
     = "visits.csv".
Proof.
  split; [reflexivity|].
  exact (proj1 (proj1 (basename_last_component "synthetic_clinical_data"
                                               "visits.csv") eq_refl)).
Defined.

Lemma load_result_table_name
      (raises : list db_call -> db_call -> option Exception)
      (read_csv : string -> outcome DataFrame)
      (csv_path : string) (h h' : list db_call) (r : LoadResult) :
  load_csv_to_postgres raises read_csv csv_path h = (Returned r, h') ->
  result_table_name r = get_table_name_from_filename (basename csv_path).
Proof.
  rewrite load_csv_to_postgres_cases. cbv zeta.
  destruct (load_steps raises read_csv csv_path h) as [[[df rows]|e] h1].
  - destruct (raises h1 Commit).
    + destruct (raises (h1 ++ [Commit]) Rollback); intros E;
        [discriminate E | injection E as <- _; reflexivity].
    + intros E. injection E as <- _. reflexivity.
  - destruct (raises h1 Rollback); intros E;
      [discriminate E | injection E as <- _; reflexivity].
Qed.

(** X14.  For a path [dir/stem.csv] whose stem holds neither a slash nor
    [.csv], every result of [load_csv_to_postgres], successful or failed,
    names the file [stem.csv] and the table [stem]. *)
Theorem load_names_file_and_table
        (raises : list db_call -> db_call -> option Exception)
        (read_csv : string -> outcome DataFrame)
        (dir stem : string) (h h' : list db_call) (r : LoadResult) :
  forallb (fun c => negb (Ascii.eqb c "/"%char)) (list_ascii_of_string stem)
  = true ->
  Str.contains ".csv" stem = false ->
  load_csv_to_postgres raises read_csv (dir ++ "/" ++ stem ++ ".csv") h
  = (Returned r, h') ->
  result_filename r = (stem ++ ".csv")%string /\ result_table_name r = stem.
Proof.
  intros Hslash Hcsv Hload.
  assert (Hb : basename (dir ++ "/" ++ stem ++ ".csv")
               = (stem ++ ".csv")%string).
  { unfold basename. rewrite !list_ascii_of_string_app. simpl.
    rewrite rev_app_distr. simpl. rewrite <- app_assoc. simpl.
    rewrite take_while_app_stop; [| |reflexivity].
    - rewrite rev_involutive, string_of_list_ascii_app,
        string_of_list_ascii_of_string. reflexivity.
    - rewrite forallb_rev, forallb_app, Hslash. reflexivity. }
  split.
  - rewrite (load_result_filename _ _ _ _ Hload). exact Hb.
  - rewrite (load_result_table_name _ _ _ _ Hload), Hb.
    unfold get_table_name_from_filename, Str.replace.
    rewrite list_ascii_of_string_app.
    change (list_ascii_of_string EmptyString) with (@nil ascii).
    rewrite replace_csv_suffix
      by (rewrite string_of_list_ascii_of_string; exact Hcsv).
    apply string_of_list_ascii_of_string.
Qed.

Lemma load_names_file_and_table_witness :
  (forallb (fun c => negb (Ascii.eqb c "/"%char))
           (list_ascii_of_string "b") = true
   /\ Str.contains ".csv" "b" = false
   /\ load_csv_to_postgres driver_ok files_a_b ("data" ++ "/" ++ "b" ++ ".csv")
                           []
      = (Returned (Failed "b.csv" "b" "No columns to parse from file"),
         [Rollback]))
  /\ result_filename (Failed "b.csv" "b" "No columns to parse from file")
     = ("b" ++ ".csv")%string
  /\ result_table_name (Failed "b.csv" "b" "No columns to parse from file")
     = "b".
Proof.
  split; [repeat split|].
  exact (@load_names_file_and_table driver_ok files_a_b "data" "b" []
           [Rollback] (Failed "b.csv" "b" "No columns to parse from file")
           eq_refl eq_refl eq_refl).
Defined.

(** X15.  No batch handed to [executemany] is empty and none holds more than
    1000 rows, whatever the dataset. *)
Theorem insert_batches_bounded (df : DataFrame) :
  Forall (fun batch : list (list db_value) =>
            0 < List.length batch <= 1000)
         (insert_batches df).
Proof.
  unfold insert_batches. destruct (empty df); [constructor|].
  assert (Hpos : 0 < batch_size) by (unfold batch_size; lia).
  pose proof (batches_sizes (df_copy_rows df) Hpos) as Hs.
  pose proof (Nat.mod_upper_bound (List.length (df_copy_rows df)) batch_size)
    as Hub.
  set (n := List.length (df_copy_rows df)) in *.
  assert (Hall : Forall (fun k => 0 < k <= 1000)
                        (map (@List.length (list db_value))
                             (batches batch_size (df_copy_rows df)))).
  { rewrite Hs. apply Forall_app. split.
    - apply Forall_forall. intros k Hk. apply repeat_spec in Hk.
      subst k. unfold batch_size. lia.
    - destruct (Nat.eqb_spec (n mod batch_size) 0) as [E | E];
        constructor; [|constructor].
      assert (n mod batch_size < batch_size) by (apply Hub; lia).
      unfold batch_size in *. lia. }
  apply Forall_forall. intros batch Hin.
  assert (Hk : In (List.length batch)
                  (map (@List.length (list db_value))
                       (batches batch_size (df_copy_rows df))))
    by (apply (in_map (@List.length (list db_value))); exact Hin).
  exact (proj1 (Forall_forall _ _) Hall _ Hk).
Qed.
